(** * patience-js: a shallow embedding of [src/patience.js]

    The library is a retry orchestrator placed in front of an HTTP client.
    This development embeds its four parts,

    - [blockedGroups]  the registry of blocked endpoint groups,
    - [options]        the policy resolver ([override], [parse]),
    - [strategies]     the registry of named policy bundles,
    - [Patience]       the orchestrator ([_configure], [_doRetry],
                       [_doReAttempt], the setters, [run], [runStrategy]),

    as executable functions over an explicit program state, and proves
    properties of these functions.

    Conventions of the embedding.

    - JavaScript values are the first-order data of [value]: [undefined],
      [null], booleans, numbers, strings and plain objects.  An object is its
      list of own enumerable properties in enumeration order, and objects
      carry no identity: [===] on two objects is structural here, so the
      statements that depend on registry membership take string group names.
    - What a plain object inherits from [Object.prototype] is represented
      where the library reads a property under a name the caller chooses,
      the registry of strategies ([strategies.list[strategyName]]).  The
      other reads of a property are under [url], [max], the keys of the
      defaults and the keys of the object read, where nothing is inherited.
      The member [this[optionName]] that [_strategyHelper] calls is modelled
      for the four setters.
    - Numbers are exact rationals.  The one arithmetic operation of the
      library ([max - 1]) is modelled on numbers only; applied to another
      value the embedding answers [Unmodelled] instead of guessing at the
      coercion, as it does wherever the source leaves the modelled fragment.
    - The two module-level [options.defaults] objects belong to the state:
      [options.parse] hands out the defaults object itself when no options are
      given, and [_configure] writes [maxRetry] through that alias.
    - The HTTP client [axios] is an oracle: the answer to the [n]-th request
      issued since the program started.  Timers are not represented; one call
      of [run] is followed until its promise settles, with no other caller
      interleaved, and what happened on the way is recorded in [history]. *)

From Stdlib Require Import ZArith QArith List String Ascii Bool Lia DecimalString.
Import ListNotations.

Set Warnings "-register-all".

Close Scope Q_scope.
Local Open Scope string_scope.
Local Open Scope list_scope.

(** ** JavaScript values *)

Inductive value : Type :=
| VUndef
| VNull
| VBool (b : bool)
| VNum (q : Q)
| VStr (s : string)
| VObj (props : list (string * value)).

(** An object: own enumerable properties, in enumeration order. *)
Definition obj : Type := list (string * value).

Definition num (z : Z) : value := VNum (inject_Z z).

(** ToBoolean. *)
Definition truthy (v : value) : bool :=
  match v with
  | VUndef | VNull => false
  | VBool b => b
  | VNum q => negb (Qeq_bool q 0%Q)
  | VStr s => negb (String.eqb s "")
  | VObj _ => true
  end.

(** [a || b] *)
Definition js_or (a b : value) : value := if truthy a then a else b.

(** [v === undefined] *)
Definition is_undefined (v : value) : bool :=
  match v with VUndef => true | _ => false end.

Definition is_nullish (v : value) : bool :=
  match v with VUndef | VNull => true | _ => false end.

(** [a === b]; structural on objects (see the conventions above). *)
Fixpoint strict_equal (a b : value) {struct a} : bool :=
  match a, b with
  | VUndef, VUndef => true
  | VNull, VNull => true
  | VBool x, VBool y => Bool.eqb x y
  | VNum m, VNum n => Qeq_bool m n
  | VStr s, VStr t => String.eqb s t
  | VObj p, VObj q =>
      (fix props_equal (p q : list (string * value)) {struct p} : bool :=
         match p, q with
         | [], [] => true
         | (k, v) :: p', (l, w) :: q' =>
             String.eqb k l && strict_equal v w && props_equal p' q'
         | _, _ => false
         end) p q
  | _, _ => false
  end.

(** *** Property access *)

Fixpoint lookup (key : string) (o : obj) : option value :=
  match o with
  | [] => None
  | (k, v) :: rest => if String.eqb k key then Some v else lookup key rest
  end.

(** [o[key] = v] on an object: overwrite in place, or append a new property. *)
Fixpoint assign (key : string) (v : value) (o : obj) : obj :=
  match o with
  | [] => [(key, v)]
  | (k, w) :: rest =>
      if String.eqb k key then (k, v) :: rest else (k, w) :: assign key v rest
  end.

Definition index_key (i : nat) : string := NilZero.string_of_uint (Nat.to_uint i).

(** Own properties of a string primitive: its characters, by index. *)
Fixpoint string_props (i : nat) (s : string) : obj :=
  match s with
  | EmptyString => []
  | String c rest => (index_key i, VStr (String c EmptyString)) :: string_props (S i) rest
  end.

(** [v[key]] for a [v] that is neither [undefined] nor [null]. *)
Definition property (v : value) (key : string) : value :=
  match v with
  | VObj o => match lookup key o with Some w => w | None => VUndef end
  | VStr s =>
      if String.eqb key "length" then num (Z.of_nat (String.length s))
      else match lookup key (string_props 0 s) with Some w => w | None => VUndef end
  | _ => VUndef
  end.

(** [Object.keys(v)] for a [v] that is neither [undefined] nor [null]
    (the library guards every use by a truthiness test). *)
Definition Object_keys (v : value) : list string :=
  match v with
  | VObj o => map fst o
  | VStr s => map fst (string_props 0 s)
  | _ => []
  end.

(** What a plain object inherits from [Object.prototype]: eleven built-in
    functions and, under [__proto__], the prototype object itself.  Each is
    an object without enumerable own properties, which is how objects are
    represented here; none of them is [undefined] or falsy. *)
Definition Object_prototype : obj :=
  [("constructor", VObj []);
   ("hasOwnProperty", VObj []);
   ("isPrototypeOf", VObj []);
   ("propertyIsEnumerable", VObj []);
   ("toLocaleString", VObj []);
   ("toString", VObj []);
   ("valueOf", VObj []);
   ("__proto__", VObj []);
   ("__defineGetter__", VObj []);
   ("__defineSetter__", VObj []);
   ("__lookupGetter__", VObj []);
   ("__lookupSetter__", VObj [])].

(** [o[key]] for a plain object [o]: its own property, else the inherited
    one, else [undefined]. *)
Definition lookup_chain (o : obj) (key : string) : value :=
  match lookup key o with
  | Some w => w
  | None =>
      match lookup key Object_prototype with
      | Some w => w
      | None => VUndef
      end
  end.

(** The integer a number denotes, if it is one. *)
Definition integer_of (v : value) : option Z :=
  match v with
  | VNum q =>
      if (Qnum q mod Zpos (Qden q) =? 0)%Z then Some (Qnum q / Zpos (Qden q))%Z
      else None
  | _ => None
  end.

(** ** Program state *)

(** What [_options.retry] and [_options.reAttempt] can hold after their
    setter ran: the defaults object of that tier itself (an alias into
    [options.defaults]), or an object of their own built by
    [options.override]. *)
Inductive policy_ref : Type :=
| TheDefaults
| Own (o : obj).

(** A settled promise. *)
Inductive promise : Type :=
| Resolved (v : value)
| Rejected (reason : value).

(** The two places that call the HTTP client. *)
Inductive tier : Type :=
| Tier1   (* [_doRequest], called from [_doRetry] *)
| Tier2.  (* the closure of [_doReAttempt] *)

Inductive event : Type :=
| Request (t : tier) (config : value)        (* [axios(config)] *)
| Publish (topic : string) (data : string)   (* [PubSub.publish(topic, data)] *)
| Notify (progress : value)                  (* [response.notify(progress)] *)
| ConsoleError (args : list value).          (* [console.error(...)] *)

Record state : Type := mkState {
  blocked : list value;            (* [blockedGroups.list] *)
  defaults_retry : obj;            (* [options.defaults.retry] *)
  defaults_reAttempt : obj;        (* [options.defaults.reAttempt] *)
  registered : obj;                (* [strategies.list] *)
  o_retry : option policy_ref;     (* [this._options.retry], [None] = undefined *)
  o_request : value;               (* [this._options.request] *)
  o_reAttempt : option policy_ref; (* [this._options.reAttempt] *)
  o_group : value;                 (* [this._options.group] *)
  issued : nat;                    (* requests handed to [axios] so far *)
  history : list (event * list value)
    (* ghost: every event with [blockedGroups.list] as it was then, newest first *)
}.

Definition set_blocked (l : list value) (st : state) : state :=
  mkState l (defaults_retry st) (defaults_reAttempt st) (registered st)
          (o_retry st) (o_request st) (o_reAttempt st) (o_group st)
          (issued st) (history st).

Definition set_defaults_retry (o : obj) (st : state) : state :=
  mkState (blocked st) o (defaults_reAttempt st) (registered st)
          (o_retry st) (o_request st) (o_reAttempt st) (o_group st)
          (issued st) (history st).

Definition set_defaults_reAttempt (o : obj) (st : state) : state :=
  mkState (blocked st) (defaults_retry st) o (registered st)
          (o_retry st) (o_request st) (o_reAttempt st) (o_group st)
          (issued st) (history st).

Definition set_registered (o : obj) (st : state) : state :=
  mkState (blocked st) (defaults_retry st) (defaults_reAttempt st) o
          (o_retry st) (o_request st) (o_reAttempt st) (o_group st)
          (issued st) (history st).

Definition set_o_retry (r : option policy_ref) (st : state) : state :=
  mkState (blocked st) (defaults_retry st) (defaults_reAttempt st) (registered st)
          r (o_request st) (o_reAttempt st) (o_group st)
          (issued st) (history st).

Definition set_o_request (v : value) (st : state) : state :=
  mkState (blocked st) (defaults_retry st) (defaults_reAttempt st) (registered st)
          (o_retry st) v (o_reAttempt st) (o_group st)
          (issued st) (history st).

Definition set_o_reAttempt (r : option policy_ref) (st : state) : state :=
  mkState (blocked st) (defaults_retry st) (defaults_reAttempt st) (registered st)
          (o_retry st) (o_request st) r (o_group st)
          (issued st) (history st).

Definition set_o_group (v : value) (st : state) : state :=
  mkState (blocked st) (defaults_retry st) (defaults_reAttempt st) (registered st)
          (o_retry st) (o_request st) (o_reAttempt st) v
          (issued st) (history st).

(** Record an event together with the registry of that instant. *)
Definition log (e : event) (st : state) : state :=
  mkState (blocked st) (defaults_retry st) (defaults_reAttempt st) (registered st)
          (o_retry st) (o_request st) (o_reAttempt st) (o_group st)
          (issued st) ((e, blocked st) :: history st).

Definition count_request (st : state) : state :=
  mkState (blocked st) (defaults_retry st) (defaults_reAttempt st) (registered st)
          (o_retry st) (o_request st) (o_reAttempt st) (o_group st)
          (S (issued st)) (history st).

(** The object behind a policy reference, given the defaults of its tier. *)
Definition deref (defaults : obj) (r : policy_ref) : obj :=
  match r with
  | TheDefaults => defaults
  | Own o => o
  end.

(** ** [blockedGroups] *)

Module blockedGroups.

(** [Array.prototype.indexOf]: the first index holding a [===] element,
    [-1] when there is none. *)
Fixpoint indexOf_from (i : Z) (l : list value) (x : value) : Z :=
  match l with
  | [] => (-1)%Z
  | y :: rest => if strict_equal y x then i else indexOf_from (i + 1)%Z rest x
  end.

Definition indexOf (l : list value) (x : value) : Z := indexOf_from 0%Z l x.

(** [list.splice(i, 1)] for an index [i] inside the array. *)
Fixpoint splice1 (i : nat) (l : list value) : list value :=
  match l, i with
  | [], _ => []
  | _ :: rest, O => rest
  | y :: rest, S j => y :: splice1 j rest
  end.

Definition contains (groupName : value) (st : state) : bool :=
  (indexOf (blocked st) groupName >? -1)%Z.

Definition add (groupName : value) (st : state) : state :=
  if negb (contains groupName st)
  then set_blocked (blocked st ++ [groupName]) st
  else st.

Definition remove (groupName : value) (st : state) : state :=
  let groupIndex := indexOf (blocked st) groupName in
  if (groupIndex >? -1)%Z
  then set_blocked (splice1 (Z.to_nat groupIndex) (blocked st)) st
  else st.

End blockedGroups.

(** ** [options] *)

Module options.

Module defaults.
Definition retry : obj :=
  [("max", num 2); ("interval", num 100); ("intervalMultiplicator", num 1)].
Definition reAttempt : obj :=
  [("max", num 3); ("interval", num 1000); ("intervalMultiplicator", num 1)].
End defaults.

Definition override (options : value) (defaultOptions : obj) : obj :=
  fold_left
    (fun resultConfig key =>
       assign key (js_or (property options key) (property (VObj defaultOptions) key))
              resultConfig)
    (Object_keys (VObj defaultOptions)) [].

(** The result is [defaultOptions] itself ([TheDefaults]) or a new object. *)
Definition parse (options : value) (defaultOptions : obj) : policy_ref :=
  if negb (truthy options) || (List.length (Object_keys options) =? 0)%nat
  then TheDefaults
  else Own (override options defaultOptions).

End options.

(** ** [strategies] *)

Module strategies.

(** The two bundles [strategies.list] starts with. *)
Definition list : obj :=
  [("resilient",
    VObj [("retry", VObj [("max", num 5); ("interval", num 100);
                          ("intervalMultiplicator", num 1)]);
          ("reAttempt", VObj [("max", num 10); ("interval", num 1000);
                              ("intervalMultiplicator", num 1)])]);
   ("exponential-backoff",
    VObj [("retry", VObj [("max", num 2); ("interval", num 100);
                          ("intervalMultiplicator", VNum (3 # 2)%Q)]);
          ("reAttempt", VObj [("max", num 3); ("interval", num 1000);
                              ("intervalMultiplicator", VNum (3 # 2)%Q)])])].

Definition get (strategyName : string) (st : state) : value :=
  if is_undefined (lookup_chain (registered st) strategyName)
  then VBool false
  else lookup_chain (registered st) strategyName.

(** The second branch has no [return]: the call evaluates to [undefined]. *)
Definition add (strategyName : string) (strategyOptions : value) (st : state)
  : value * state :=
  if truthy (get strategyName st)
  then (VBool false, st)
  else (VUndef,
        set_registered (assign strategyName strategyOptions (registered st)) st).

End strategies.

(** ** [messages] *)

Module messages.
Definition retryFailed : string := "Request failed.".
Definition reAttemptsFailed : string := "Re-attempts of request failed.".
Definition requestsBlocked : string :=
  "Requests are currently blocked by Retry library.".
End messages.

(** The state the module starts in, before any call. *)
Definition initial_state : state :=
  mkState [] options.defaults.retry options.defaults.reAttempt strategies.list
          None VUndef None VUndef 0 [].

(** ** Computations *)

(** How a call ends: it returns, it throws, or the source left the fragment
    that the embedding covers (a call of a member that is no configuration
    setter, a coercion of a non-number, a retry count that is no integer). *)
Inductive completion (A : Type) : Type :=
| Returns (a : A)
| Throws (error : string)
| Unmodelled.

Arguments Returns {A} a.
Arguments Throws {A} error.
Arguments Unmodelled {A}.

Definition M (A : Type) : Type := state -> completion A * state.

Definition ret {A : Type} (a : A) : M A := fun st => (Returns a, st).

Definition bind {A B : Type} (m : M A) (f : A -> M B) : M B :=
  fun st =>
    match m st with
    | (Returns a, st') => f a st'
    | (Throws e, st') => (Throws e, st')
    | (Unmodelled, st') => (Unmodelled, st')
    end.

Definition throw {A : Type} (e : string) : M A := fun st => (Throws e, st).
Definition unmodelled {A : Type} : M A := fun st => (Unmodelled, st).
Definition get_state : M state := fun st => (Returns st, st).
Definition update (f : state -> state) : M unit := fun st => (Returns tt, f st).
Definition emit (e : event) : M unit := update (log e).

Declare Scope js_scope.
Delimit Scope js_scope with js.
Notation "x <- m ;; k" := (bind m (fun x => k))
  (at level 100, m at next level, right associativity) : js_scope.
Notation "m ;; k" := (bind m (fun _ => k))
  (at level 100, right associativity) : js_scope.
Local Open Scope js_scope.

Fixpoint for_each {A : Type} (l : list A) (f : A -> M unit) : M unit :=
  match l with
  | [] => ret tt
  | x :: rest => f x ;; for_each rest f
  end.

(** Modelled from the spec: the bounded-retry primitive [Qretry] is a package
    the library imports, described at its boundary only: given an action
    returning a future and a policy [{maxRetry, interval,
    intervalMultiplicator}] it retries the action up to [maxRetry] additional
    times beyond the first try, resolving on the first success or rejecting
    after exhaustion with the last error.  The delays between tries are not
    represented. *)
Fixpoint Qretry_from (action : M promise) (maxRetry : nat) : M promise :=
  outcome <- action ;;
  match outcome with
  | Resolved res => ret (Resolved res)
  | Rejected err =>
      match maxRetry with
      | O => ret (Rejected err)
      | S remaining => Qretry_from action remaining
      end
  end.

(** Modelled from the spec: the entry point of the same package, which is
    handed the policy object; [maxRetry] is specified as an integer, and a
    call without a policy or with another [maxRetry] is left [Unmodelled]. *)
Definition Qretry (action : M promise) (options : option obj) : M promise :=
  match options with
  | Some o =>
      match integer_of (property (VObj o) "maxRetry") with
      | Some n => Qretry_from action (Z.to_nat n)
      | None => unmodelled
      end
  | None => unmodelled
  end.

(** ** [Patience] *)

Section Patience.

(** The HTTP client: how the request with configuration [config], the
    [n]-th one issued, ends. *)
Variable axios : value -> nat -> promise.

Definition axios_call (t : tier) (config : value) : M promise :=
  fun st => (Returns (axios config (issued st)),
             count_request (log (Request t config) st)).

(** *** The setters *)

Definition retry (params : value) : M unit :=
  update (fun st =>
    set_o_retry (Some (options.parse params (defaults_retry st))) st).

Definition request (params : value) : M unit :=
  update (set_o_request params).

Definition reAttempt (params : value) : M unit :=
  update (fun st =>
    set_o_reAttempt (Some (options.parse params (defaults_reAttempt st))) st).

Definition group (name : value) : M unit :=
  update (set_o_group name).

(** [this._options.retry], as an object. *)
Definition the_retry (st : state) : option obj :=
  option_map (deref (defaults_retry st)) (o_retry st).

Definition the_reAttempt (st : state) : option obj :=
  option_map (deref (defaults_reAttempt st)) (o_reAttempt st).

(** [this._options.retry.maxRetry = v], through the alias when there is one. *)
Definition write_retry_maxRetry (v : value) : M unit :=
  st <- get_state ;;
  match o_retry st with
  | None => throw "TypeError"
  | Some TheDefaults =>
      update (set_defaults_retry (assign "maxRetry" v (defaults_retry st)))
  | Some (Own o) =>
      update (set_o_retry (Some (Own (assign "maxRetry" v o))))
  end.

Definition write_reAttempt_maxRetry (v : value) : M unit :=
  st <- get_state ;;
  match o_reAttempt st with
  | None => throw "TypeError"
  | Some TheDefaults =>
      update (set_defaults_reAttempt (assign "maxRetry" v (defaults_reAttempt st)))
  | Some (Own o) =>
      update (set_o_reAttempt (Some (Own (assign "maxRetry" v o))))
  end.

(** *** [_configure] *)

Definition _configure : M unit :=
  (* if retry options are not present, call the setter to populate defaults *)
  st <- get_state ;;
  (match o_retry st with
   | None => retry VUndef
   | Some _ => ret tt
   end) ;;
  (* if group was not set, assume request url as group *)
  st <- get_state ;;
  (if is_undefined (o_group st)
   then if is_nullish (o_request st)
        then throw "TypeError"
        else group (property (o_request st) "url")
   else ret tt) ;;
  (* Qretry options key translation *)
  st <- get_state ;;
  (match the_retry st with
   | None => throw "TypeError"
   | Some o => write_retry_maxRetry (property (VObj o) "max")
   end) ;;
  (* re-attempts are a total sum in this library *)
  st <- get_state ;;
  match the_reAttempt st with
  | None => ret tt
  | Some o =>
      match property (VObj o) "max" with
      | VNum max => write_reAttempt_maxRetry (VNum (max - 1)%Q)
      | _ => unmodelled
      end
  end.

Definition _doRequest : M promise :=
  st <- get_state ;;
  axios_call Tier1 (o_request st).

(** *** [_doReAttempt]: how [response.promise] settles *)

Definition _doReAttempt : M promise :=
  st <- get_state ;;
  outcome <- Qretry (st' <- get_state ;; axios_call Tier2 (o_request st'))
                    (the_reAttempt st) ;;
  match outcome with
  | Resolved res =>
      (* successful re-attempt *)
      st <- get_state ;;
      update (blockedGroups.remove (o_group st)) ;;
      ret (Resolved res)
  | Rejected err =>
      (* all re-attempts failed *)
      st <- get_state ;;
      update (blockedGroups.remove (o_group st)) ;;
      emit (Publish "reAttemptsFailed" messages.reAttemptsFailed) ;;
      ret (Rejected (VObj [("message", VStr messages.reAttemptsFailed);
                           ("err", err)]))
  end.

(** *** [_doRetry]: how [response.promise] settles *)

Definition _doRetry : M promise :=
  st <- get_state ;;
  outcome <- Qretry _doRequest (the_retry st) ;;
  match outcome with
  | Resolved res =>
      (* original request or retry succeeded *)
      ret (Resolved res)
  | Rejected err =>
      emit (Publish "retriesFailed" messages.retryFailed) ;;
      st <- get_state ;;
      match o_reAttempt st with
      | Some _ =>
          emit (Notify (VObj [("message", VStr messages.retryFailed);
                              ("error", err)])) ;;
          (* block future async calls *)
          update (blockedGroups.add (o_group st)) ;;
          (* start re-attempt *)
          _doReAttempt
      | None =>
          ret (Rejected (VObj [("message", VStr messages.retryFailed);
                               ("error", err)]))
      end
  end.

(** *** [run]

    The value is the state [response.promise] settles in; [Throws] is an
    exception thrown by the call of [run] itself, before any promise
    exists. *)
Definition run : M promise :=
  _configure ;;
  st <- get_state ;;
  if blockedGroups.contains (o_group st) st
  then ret (Rejected (VObj [("message", VStr messages.requestsBlocked)]))
  else _doRetry.

(** *** Strategies *)

(** [this[optionName](options)] is modelled for the four setters.  A call
    of any other member, own or inherited, is not: the computation stops as
    [Unmodelled], and what is stated of the loop over a bundle is stated
    for bundles whose keys with a truthy value name setters. *)
Definition _strategyHelper (optionName : string) (options : value) : M unit :=
  if truthy options
  then
    if String.eqb optionName "retry" then retry options
    else if String.eqb optionName "request" then request options
    else if String.eqb optionName "reAttempt" then reAttempt options
    else if String.eqb optionName "group" then group options
    else unmodelled
  else ret tt.

Definition addStrategy (strategyName : string) (strategyOptions : value) : M unit :=
  update (fun st => snd (strategies.add strategyName strategyOptions st)).

(** [inl false] is the synchronous [return false]; [inr p] is the promise
    [run] returned, in the state it settles in. *)
Definition runStrategy (strategyName : string) : M (value + promise) :=
  st <- get_state ;;
  let strategy := strategies.get strategyName st in
  if negb (truthy strategy)
  then
    emit (ConsoleError [VStr "Retry strategy"; VStr strategyName; VStr "not found."]) ;;
    ret (inl (VBool false))
  else
    for_each (Object_keys strategy)
             (fun key => _strategyHelper key (property strategy key)) ;;
    p <- run ;;
    ret (inr p).

End Patience.

(** ** Vocabulary of the statements *)

Definition is_rejected (p : promise) : bool :=
  match p with
  | Rejected _ => true
  | Resolved _ => false
  end.

(** The state after [n] more requests of tier [t], nothing else happening. *)
Definition sent (t : tier) (n : nat) (st : state) : state :=
  mkState (blocked st) (defaults_retry st) (defaults_reAttempt st) (registered st)
          (o_retry st) (o_request st) (o_reAttempt st) (o_group st)
          (issued st + n)
          (repeat (Request t (o_request st), blocked st) n ++ history st).

(** One request of tier [t]: the action both phases hand to [Qretry]. *)
Definition send (axios : value -> nat -> promise) (t : tier) : M promise :=
  st <- get_state ;; axios_call axios t (o_request st).

(** The policy [_configure] finds in [_options.retry]: the one a setter put
    there, or the defaults it then applies. *)
Definition resolved_retry (st : state) : obj :=
  match o_retry st with
  | Some r => deref (defaults_retry st) r
  | None => defaults_retry st
  end.

(** The group [_configure] settles on: the one set, else the [url] of the
    request; [None] when reading that [url] throws. *)
Definition resolved_group (st : state) : option value :=
  if is_undefined (o_group st)
  then if is_nullish (o_request st) then None
       else Some (property (o_request st) "url")
  else Some (o_group st).

Definition is_number (v : value) : bool :=
  match v with VNum _ => true | _ => false end.

(** A re-attempt policy, when one is set, has a number for [max]. *)
Definition reAttempt_typed (st : state) : bool :=
  match the_reAttempt st with
  | None => true
  | Some o => is_number (property (VObj o) "max")
  end.

(** What a settled promise carries. *)
Definition payload (p : promise) : value :=
  match p with
  | Resolved v => v
  | Rejected e => e
  end.

Definition failure (message : string) (key : string) (cause : value) : value :=
  VObj [("message", VStr message); (key, cause)].

Definition blocked_message : value :=
  VObj [("message", VStr "Requests are currently blocked by Retry library.")].

(** What [history] gains while tier 1 is exhausted and the run escalates. *)
Definition escalation (st : state) (m : nat) (cause : value)
  : list (event * list value) :=
  (Notify (failure "Request failed." "error" cause), blocked st)
    :: (Publish "retriesFailed" "Request failed.", blocked st)
    :: repeat (Request Tier1 (o_request st), blocked st) (S m).

(** [this[key](v)] for a key that names a setter. *)
Definition setter (key : string) (v : value) : M unit :=
  if String.eqb key "retry" then retry v
  else if String.eqb key "request" then request v
  else if String.eqb key "reAttempt" then reAttempt v
  else if String.eqb key "group" then group v
  else unmodelled.

(** The names of the four setters. *)
Definition is_setter (key : string) : bool :=
  String.eqb key "retry" || String.eqb key "request"
  || String.eqb key "reAttempt" || String.eqb key "group".

(** Every key of the bundle that has a truthy value names a setter, so the
    loop of [runStrategy] calls setters only. *)
Definition setters_only (strategy : value) : bool :=
  forallb (fun key => negb (truthy (property strategy key)) || is_setter key)
          (Object_keys strategy).

(** The loop of [runStrategy] over the keys of the bundle. *)
Definition apply_bundle (strategy : value) : M unit :=
  for_each (Object_keys strategy)
           (fun key => _strategyHelper key (property strategy key)).

Definition not_found (strategyName : string) : event :=
  ConsoleError [VStr "Retry strategy"; VStr strategyName; VStr "not found."].

Section AsClaimed.

Variable axios : value -> nat -> promise.

(** [runStrategy] in the words of C8: an unregistered name logs an error
    and returns [false]; for a registered name every key of the bundle is
    applied as its setter, and [run] follows. *)
Definition runStrategy_every_key (strategyName : string) : M (value + promise) :=
  st <- get_state ;;
  match lookup strategyName (registered st) with
  | None => emit (not_found strategyName) ;; ret (inl (VBool false))
  | Some bundle =>
      for_each (Object_keys bundle) (fun key => setter key (property bundle key)) ;;
      p <- run axios ;;
      ret (inr p)
  end.

End AsClaimed.

(** ** Runs of the demo application *)

Definition badRequestConfig : value :=
  VObj [("method", VStr "GET"); ("url", VStr "http://localhost:8080/bad-url")].

(** A client whose every request fails. *)
Definition network_down : value -> nat -> promise :=
  fun _ _ => Rejected (VStr "Network Error").

(** A client whose first [n] requests fail and whose later ones succeed. *)
Definition network_back_after (n : nat) : value -> nat -> promise :=
  fun _ i => if (i <? n)%nat then Rejected (VStr "Network Error") else Resolved (VStr "OK").

Definition configured_by (setters : M unit) : state := snd (setters initial_state).

(** [$httpRetry.request(badRequestConfig).retry().reAttempt()] *)
Definition makeFailingRequest : state :=
  configured_by (request badRequestConfig ;; retry VUndef ;; reAttempt VUndef).

(** [$httpRetry.request(badRequestConfig).retry()] *)
Definition retry_only : state :=
  configured_by (request badRequestConfig ;; retry VUndef).

(** [$httpRetry.request(badRequestConfig).retry({max: 3})] *)
Definition three_retries : state :=
  configured_by (request badRequestConfig ;; retry (VObj [("max", num 3)])).

(** The demo request while its group is blocked. *)
Definition while_blocked : state :=
  set_blocked [VStr "http://localhost:8080/bad-url"] makeFailingRequest.

(** A bundle within the data model whose group is the empty string,
    registered as "quiet", on a configuration whose group is "api". *)
Definition quiet : value :=
  VObj [("retry", VObj [("max", num 1)]);
        ("reAttempt", VObj [("max", num 1)]);
        ("group", VStr "")].

Definition with_quiet : state :=
  configured_by (addStrategy "quiet" quiet ;;
                 request badRequestConfig ;;
                 group (VStr "api")).

(** The requests of one tier in a history. *)
Definition requests_of (t : tier) (h : list (event * list value)) : nat :=
  List.length
    (filter (fun entry =>
               match fst entry, t with
               | Request Tier1 _, Tier1 => true
               | Request Tier2 _, Tier2 => true
               | _, _ => false
               end) h).

(** ** Vocabulary of the further properties *)

(** No two entries of a registry are [===]. *)
Fixpoint distinct (l : list value) : bool :=
  match l with
  | [] => true
  | x :: rest => negb (existsb (fun y => strict_equal x y) rest) && distinct rest
  end.

(** A list without the first entry that is [===] to [x]. *)
Fixpoint without_first (x : value) (l : list value) : list value :=
  match l with
  | [] => []
  | y :: rest => if strict_equal y x then rest else y :: without_first x rest
  end.

(** The demo request with its group blocked and another group before it. *)
Definition two_blocked : state :=
  set_blocked [VStr "http://localhost:8080"; VStr "http://localhost:8080/bad-url"]
              makeFailingRequest.

(** Options with a key the defaults do not have. *)
Definition options_with_timeout : value :=
  VObj [("timeout", num 5000); ("max", num 7)].

(** Three registrations, the first and the last under a built-in name. *)
Definition three_registrations : list (string * value) :=
  [("resilient", quiet); ("custom", quiet); ("resilient", VObj [])].

(** A request that has no [url]. *)
Definition urlless : value := VObj [("method", VStr "GET")].

(** A configuration with that request and no group, while [undefined] is
    in the registry. *)
Definition urlless_while_blocked : state :=
  set_blocked [VUndef] (configured_by (request urlless ;; retry VUndef)).

(** The number of re-attempt tries a configuration allows: none without a
    re-attempt policy, and [max] with one. *)
Definition reAttempt_allows (st : state) (k : nat) : Prop :=
  (o_reAttempt st = None /\ k = 0) \/
  (exists a, the_reAttempt st = Some a /\
             integer_of (property (VObj a) "max") = Some (Z.of_nat k) /\
             1 <= k).

(** A computation keeps a part of the state: however it ends, that part is
    what it was. *)
Definition keeps {X A : Type} (part : state -> X) (m : M A) : Prop :=
  forall st, part (snd (m st)) = part st.

(** A computation maintains a property of the state: however it ends, the
    property holds afterwards when it held before. *)
Definition maintains {A : Type} (P : state -> Prop) (m : M A) : Prop :=
  forall st, P st -> P (snd (m st)).

(** The events the library may log: a [Publish] only under one of its two
    topics. *)
Definition publishable (e : event) : bool :=
  match e with
  | Publish topic _ =>
      String.eqb topic "retriesFailed" || String.eqb topic "reAttemptsFailed"
  | _ => true
  end.

(** Every [Publish] in the history was in [h0] or has one of the two topics. *)
Definition only_published (h0 : list (event * list value)) (st : state) : Prop :=
  forall topic data snapshot,
    In (Publish topic data, snapshot) (history st) ->
    In (Publish topic data, snapshot) h0 \/
    topic = "retriesFailed" \/ topic = "reAttemptsFailed".

(** * Properties *)

(** ** Objects and numbers *)

Lemma lookup_assign_same (key : string) (v : value) (o : obj) :
  lookup key (assign key v o) = Some v.
Proof.
  induction o as [|[k w] rest IH]; simpl.
  - now rewrite String.eqb_refl.
  - destruct (String.eqb k key) eqn:E; simpl; rewrite E; auto.
Qed.

Lemma lookup_assign_other (key key' : string) (v : value) (o : obj) :
  key' <> key -> lookup key' (assign key v o) = lookup key' o.
Proof.
  intros Hne. induction o as [|[k w] rest IH]; simpl.
  - destruct (String.eqb_spec key key'); congruence.
  - destruct (String.eqb_spec k key) as [->|Hk]; simpl.
    + destruct (String.eqb_spec key key'); congruence.
    + now rewrite IH.
Qed.

Lemma property_assign_same (key : string) (v : value) (o : obj) :
  property (VObj (assign key v o)) key = v.
Proof. simpl. now rewrite lookup_assign_same. Qed.

Lemma property_assign_other (key key' : string) (v : value) (o : obj) :
  key' <> key -> property (VObj (assign key v o)) key' = property (VObj o) key'.
Proof. intros H. simpl. now rewrite lookup_assign_other. Qed.

Lemma integer_of_num (k : Z) : integer_of (num k) = Some k.
Proof.
  unfold integer_of, num, inject_Z; simpl.
  now rewrite Z.mod_1_r, Z.div_1_r.
Qed.

Lemma integer_of_is_number (v : value) (k : Z) :
  integer_of v = Some k -> exists q, v = VNum q.
Proof. destruct v; simpl; try discriminate. eauto. Qed.

(** [max - 1] of the integer [k] is the integer [k - 1]. *)
Lemma integer_of_pred (q : Q) (k : Z) :
  integer_of (VNum q) = Some k -> integer_of (VNum (q - 1)%Q) = Some (k - 1)%Z.
Proof.
  destruct q as [n d]; unfold integer_of; simpl.
  destruct (Z.eqb_spec (n mod Zpos d) 0) as [Hm|]; [|discriminate].
  intros [= <-].
  rewrite Pos.mul_1_r, Z.mul_1_r.
  assert (Hn : n = (Zpos d * (n / Zpos d))%Z) by (apply Z.div_exact; [lia | exact Hm]).
  assert (E : (n + Z.neg d = (n / Zpos d - 1) * Zpos d)%Z) by lia.
  rewrite E, Z.mod_mul, Z.div_mul by lia.
  reflexivity.
Qed.

(** ** The registry of blocked groups *)

Lemma strict_equal_string (g : string) : strict_equal (VStr g) (VStr g) = true.
Proof. simpl. apply String.eqb_refl. Qed.

Lemma indexOf_from_range (l : list value) (x : value) (i : Z) :
  blockedGroups.indexOf_from i l x = (-1)%Z \/
  (i <= blockedGroups.indexOf_from i l x)%Z.
Proof.
  revert i; induction l as [|y rest IH]; intros i; simpl.
  - now left.
  - destruct (strict_equal y x); [right; lia|].
    destruct (IH (i + 1)%Z); [now left | right; lia].
Qed.

Lemma indexOf_from_found (l : list value) (x : value) (i : Z) :
  (0 <= i)%Z ->
  (blockedGroups.indexOf_from i l x >? -1)%Z = existsb (fun y => strict_equal y x) l.
Proof.
  revert i; induction l as [|y rest IH]; intros i Hi; simpl.
  - reflexivity.
  - destruct (strict_equal y x); simpl.
    + apply Z.gtb_lt; lia.
    + apply IH; lia.
Qed.

Lemma contains_existsb (x : value) (st : state) :
  blockedGroups.contains x st = existsb (fun y => strict_equal y x) (blocked st).
Proof. apply indexOf_from_found; lia. Qed.

Lemma indexOf_from_last (l : list value) (x : value) (i : Z) :
  existsb (fun y => strict_equal y x) l = false ->
  strict_equal x x = true ->
  blockedGroups.indexOf_from i (l ++ [x]) x = (i + Z.of_nat (List.length l))%Z.
Proof.
  revert i; induction l as [|y rest IH]; intros i Hl Hx; simpl in *.
  - rewrite Hx; lia.
  - apply orb_false_elim in Hl as [Hy Hrest]. rewrite Hy, IH by assumption. lia.
Qed.

Lemma splice1_last (l : list value) (x : value) :
  blockedGroups.splice1 (List.length l) (l ++ [x]) = l.
Proof. induction l as [|y rest IH]; simpl; [reflexivity | now rewrite IH]. Qed.

(** Unblocking a group that was blocked last gives back the registry as it
    was before the group was blocked. *)
Lemma remove_last (l : list value) (g : string) (st : state) :
  existsb (fun y => strict_equal y (VStr g)) l = false ->
  blocked st = l ++ [VStr g] ->
  blockedGroups.remove (VStr g) st = set_blocked l st.
Proof.
  intros Hl Hst. unfold blockedGroups.remove, blockedGroups.indexOf.
  rewrite Hst, indexOf_from_last by (auto using strict_equal_string).
  simpl. replace (Z.of_nat (List.length l) >? -1)%Z with true
    by (symmetry; apply Z.gtb_lt; lia).
  now rewrite Nat2Z.id, splice1_last.
Qed.

Lemma add_fresh (x : value) (st : state) :
  blockedGroups.contains x st = false ->
  blockedGroups.add x st = set_blocked (blocked st ++ [x]) st.
Proof. intros H. unfold blockedGroups.add. now rewrite H. Qed.

(** ** The bounded-retry primitive over the HTTP client *)

Lemma sent_O (t : tier) (st : state) : sent t 0 st = st.
Proof. destruct st; unfold sent; simpl. now rewrite Nat.add_0_r. Qed.

Lemma sent_S (t : tier) (n : nat) (st : state) :
  sent t (S n) st = sent t n (count_request (log (Request t (o_request st)) st)).
Proof.
  unfold sent; simpl. f_equal; [lia|].
  change (?e :: repeat ?e n ++ ?h) with ((e :: repeat e n) ++ h).
  now rewrite repeat_cons, <- app_assoc.
Qed.

Lemma sent_1 (t : tier) (n : nat) (st : state) :
  sent t n (sent t 1 st) = sent t (S n) st.
Proof. now rewrite (sent_S t n st), (sent_S t 0 st), sent_O. Qed.

Section Retrying.

Variable axios : value -> nat -> promise.

Lemma send_run (t : tier) (st : state) :
  send axios t st = (Returns (axios (o_request st) (issued st)), sent t 1 st).
Proof. now rewrite sent_S, sent_O. Qed.

(** When the first try and all [n] retries fail, [n + 1] requests are
    made and the last error is the result. *)
Lemma Qretry_from_exhausted (t : tier) (n : nat) (st : state) :
  (forall i, i <= n -> is_rejected (axios (o_request st) (issued st + i)) = true) ->
  Qretry_from (send axios t) n st
  = (Returns (axios (o_request st) (issued st + n)), sent t (S n) st).
Proof.
  revert st; induction n as [|n IH]; intros st Hfail.
  - simpl. unfold bind. rewrite send_run.
    pose proof (Hfail 0 (Nat.le_refl 0)) as H0. rewrite Nat.add_0_r in *.
    destruct (axios (o_request st) (issued st)); [discriminate | reflexivity].
  - simpl. unfold bind. rewrite send_run.
    pose proof (Hfail 0 (Nat.le_0_l _)) as H0. rewrite Nat.add_0_r in H0.
    destruct (axios (o_request st) (issued st)); [discriminate|].
    rewrite IH.
    + rewrite sent_1. simpl. now replace (issued st + 1 + n) with (issued st + S n) by lia.
    + intros i Hi. simpl.
      replace (issued st + 1 + i) with (issued st + S i) by lia.
      apply Hfail. lia.
Qed.

(** When try number [j + 1] is the first to succeed and at least [j]
    retries are allowed, [j + 1] requests are made and its value is the
    result. *)
Lemma Qretry_from_success (t : tier) (n j : nat) (st : state) (res : value) :
  j <= n ->
  (forall i, i < j -> is_rejected (axios (o_request st) (issued st + i)) = true) ->
  axios (o_request st) (issued st + j) = Resolved res ->
  Qretry_from (send axios t) n st = (Returns (Resolved res), sent t (S j) st).
Proof.
  revert j st; induction n as [|n IH]; intros j st Hj Hfail Hok.
  - assert (j = 0) by lia; subst j. rewrite Nat.add_0_r in Hok.
    simpl. unfold bind. rewrite send_run, Hok. reflexivity.
  - destruct j as [|j].
    + rewrite Nat.add_0_r in Hok.
      simpl. unfold bind. rewrite send_run, Hok. reflexivity.
    + simpl. unfold bind. rewrite send_run.
      pose proof (Hfail 0 (Nat.lt_0_succ _)) as H0. rewrite Nat.add_0_r in H0.
      destruct (axios (o_request st) (issued st)); [discriminate|].
      rewrite (IH j).
      * now rewrite sent_1.
      * lia.
      * intros i Hi. simpl.
        replace (issued st + 1 + i) with (issued st + S i) by lia.
        apply Hfail. lia.
      * simpl. now replace (issued st + 1 + j) with (issued st + S j) by lia.
Qed.

End Retrying.

(** ** Configuration *)

Lemma _configure_spec (st : state) (g : value) :
  resolved_group st = Some g ->
  reAttempt_typed st = true ->
  exists st1,
    _configure st = (Returns tt, st1) /\
    blocked st1 = blocked st /\
    issued st1 = issued st /\
    history st1 = history st /\
    registered st1 = registered st /\
    o_request st1 = o_request st /\
    o_group st1 = g /\
    the_retry st1
    = Some (assign "maxRetry" (property (VObj (resolved_retry st)) "max")
                   (resolved_retry st)) /\
    match the_reAttempt st with
    | None => o_reAttempt st1 = None
    | Some o =>
        o_reAttempt st1 <> None /\
        exists q, property (VObj o) "max" = VNum q /\
                  the_reAttempt st1 = Some (assign "maxRetry" (VNum (q - 1)%Q) o)
    end.
Proof.
  destruct st as [bl dr da reg r rq a gr n h].
  unfold resolved_group, reAttempt_typed, resolved_retry, the_reAttempt, the_retry.
  simpl. intros Hg Ha.
  unfold _configure, write_retry_maxRetry, write_reAttempt_maxRetry, retry, group,
    the_retry, the_reAttempt, bind, get_state, update, throw, unmodelled, ret,
    options.parse.
  destruct a as [[|ao]|]; simpl in Ha;
    [ destruct (lookup "max" da) as [[]|] eqn:Emax; try discriminate
    | destruct (lookup "max" ao) as [[]|] eqn:Emax; try discriminate
    | ];
    (destruct gr; simpl in Hg; [destruct rq; simpl in Hg; try discriminate|..]);
    injection Hg as <-;
    destruct r as [[|ro]|]; simpl; rewrite ?Emax;
    eexists; repeat split; eauto; discriminate.
Qed.

(** ** The two phases *)

Section Phases.

Variable axios : value -> nat -> promise.

Lemma Qretry_exhausted (t : tier) (st : state) (o : obj) (n : Z) :
  integer_of (property (VObj o) "maxRetry") = Some n ->
  (forall i, i <= Z.to_nat n ->
             is_rejected (axios (o_request st) (issued st + i)) = true) ->
  Qretry (send axios t) (Some o) st
  = (Returns (Rejected (payload (axios (o_request st) (issued st + Z.to_nat n)))),
     sent t (S (Z.to_nat n)) st).
Proof.
  intros Hn Hfail. unfold Qretry. rewrite Hn, Qretry_from_exhausted by assumption.
  specialize (Hfail _ (Nat.le_refl _)).
  destruct (axios (o_request st) (issued st + Z.to_nat n)); [discriminate | reflexivity].
Qed.

Lemma Qretry_success (t : tier) (st : state) (o : obj) (n : Z) (j : nat) (res : value) :
  integer_of (property (VObj o) "maxRetry") = Some n ->
  j <= Z.to_nat n ->
  (forall i, i < j -> is_rejected (axios (o_request st) (issued st + i)) = true) ->
  axios (o_request st) (issued st + j) = Resolved res ->
  Qretry (send axios t) (Some o) st = (Returns (Resolved res), sent t (S j) st).
Proof.
  intros Hn Hj Hfail Hok. unfold Qretry. rewrite Hn.
  now apply Qretry_from_success.
Qed.

Lemma _doReAttempt_exhausted (st : state) (o : obj) (n : Z) :
  the_reAttempt st = Some o ->
  integer_of (property (VObj o) "maxRetry") = Some n ->
  (forall i, i <= Z.to_nat n ->
             is_rejected (axios (o_request st) (issued st + i)) = true) ->
  _doReAttempt axios st
  = (Returns (Rejected (failure messages.reAttemptsFailed "err"
                (payload (axios (o_request st) (issued st + Z.to_nat n))))),
     log (Publish "reAttemptsFailed" messages.reAttemptsFailed)
         (blockedGroups.remove (o_group st) (sent Tier2 (S (Z.to_nat n)) st))).
Proof.
  intros Ho Hn Hfail. unfold _doReAttempt.
  change (st' <- get_state ;; axios_call axios Tier2 (o_request st'))%js
    with (send axios Tier2).
  unfold bind at 1. unfold get_state at 1. unfold bind at 1.
  rewrite Ho, (Qretry_exhausted Tier2 st o n Hn Hfail).
  reflexivity.
Qed.

Lemma _doReAttempt_success (st : state) (o : obj) (n : Z) (j : nat) (res : value) :
  the_reAttempt st = Some o ->
  integer_of (property (VObj o) "maxRetry") = Some n ->
  j <= Z.to_nat n ->
  (forall i, i < j -> is_rejected (axios (o_request st) (issued st + i)) = true) ->
  axios (o_request st) (issued st + j) = Resolved res ->
  _doReAttempt axios st
  = (Returns (Resolved res),
     blockedGroups.remove (o_group st) (sent Tier2 (S j) st)).
Proof.
  intros Ho Hn Hj Hfail Hok. unfold _doReAttempt.
  change (st' <- get_state ;; axios_call axios Tier2 (o_request st'))%js
    with (send axios Tier2).
  unfold bind at 1. unfold get_state at 1. unfold bind at 1.
  rewrite Ho, (Qretry_success Tier2 st o n j res Hn Hj Hfail Hok).
  reflexivity.
Qed.

Lemma _doRetry_success (st : state) (o : obj) (n : Z) (j : nat) (res : value) :
  the_retry st = Some o ->
  integer_of (property (VObj o) "maxRetry") = Some n ->
  j <= Z.to_nat n ->
  (forall i, i < j -> is_rejected (axios (o_request st) (issued st + i)) = true) ->
  axios (o_request st) (issued st + j) = Resolved res ->
  _doRetry axios st = (Returns (Resolved res), sent Tier1 (S j) st).
Proof.
  intros Ho Hn Hj Hfail Hok. unfold _doRetry.
  change (_doRequest axios) with (send axios Tier1).
  unfold bind at 1. unfold get_state at 1. unfold bind at 1.
  rewrite Ho, (Qretry_success Tier1 st o n j res Hn Hj Hfail Hok).
  reflexivity.
Qed.

(** Tier 1 exhausted, no re-attempt policy: the promise is rejected. *)
Lemma _doRetry_exhausted (st : state) (o : obj) (n : Z) :
  the_retry st = Some o ->
  integer_of (property (VObj o) "maxRetry") = Some n ->
  (forall i, i <= Z.to_nat n ->
             is_rejected (axios (o_request st) (issued st + i)) = true) ->
  o_reAttempt st = None ->
  _doRetry axios st
  = (Returns (Rejected (failure messages.retryFailed "error"
                (payload (axios (o_request st) (issued st + Z.to_nat n))))),
     log (Publish "retriesFailed" messages.retryFailed)
         (sent Tier1 (S (Z.to_nat n)) st)).
Proof.
  intros Ho Hn Hfail Hnone. unfold _doRetry.
  change (_doRequest axios) with (send axios Tier1).
  unfold bind at 1. unfold get_state at 1. unfold bind at 1.
  rewrite Ho, (Qretry_exhausted Tier1 st o n Hn Hfail).
  unfold bind, emit, update, get_state. simpl. rewrite Hnone. reflexivity.
Qed.

(** Tier 1 exhausted, a re-attempt policy is set: progress is notified,
    the group is blocked and the re-attempt phase starts. *)
Lemma _doRetry_escalates (st : state) (o : obj) (n : Z) :
  the_retry st = Some o ->
  integer_of (property (VObj o) "maxRetry") = Some n ->
  (forall i, i <= Z.to_nat n ->
             is_rejected (axios (o_request st) (issued st + i)) = true) ->
  o_reAttempt st <> None ->
  _doRetry axios st
  = _doReAttempt axios
      (blockedGroups.add (o_group st)
         (log (Notify (failure messages.retryFailed "error"
                 (payload (axios (o_request st) (issued st + Z.to_nat n)))))
            (log (Publish "retriesFailed" messages.retryFailed)
               (sent Tier1 (S (Z.to_nat n)) st)))).
Proof.
  intros Ho Hn Hfail Hsome. unfold _doRetry.
  change (_doRequest axios) with (send axios Tier1).
  unfold bind at 1. unfold get_state at 1. unfold bind at 1.
  rewrite Ho, (Qretry_exhausted Tier1 st o n Hn Hfail).
  unfold bind, emit, update, get_state. simpl.
  destruct (o_reAttempt st); [reflexivity | congruence].
Qed.

End Phases.

(** ** [run] *)

Section Run.

Variable axios : value -> nat -> promise.

(** A run on a group that is not blocked is the retry phase started from
    the configured state. *)
Lemma run_unblocked (st : state) (g : string) :
  resolved_group st = Some (VStr g) ->
  reAttempt_typed st = true ->
  blockedGroups.contains (VStr g) st = false ->
  exists st1,
    run axios st = _doRetry axios st1 /\
    blocked st1 = blocked st /\
    issued st1 = issued st /\
    history st1 = history st /\
    o_request st1 = o_request st /\
    o_group st1 = VStr g /\
    the_retry st1
    = Some (assign "maxRetry" (property (VObj (resolved_retry st)) "max")
                   (resolved_retry st)) /\
    match the_reAttempt st with
    | None => o_reAttempt st1 = None
    | Some o =>
        o_reAttempt st1 <> None /\
        exists q, property (VObj o) "max" = VNum q /\
                  the_reAttempt st1 = Some (assign "maxRetry" (VNum (q - 1)%Q) o)
    end.
Proof.
  intros Hg Ha Hfree.
  destruct (_configure_spec st (VStr g) Hg Ha)
    as (st1 & Hrun & Hb & Hi & Hh & _ & Hr & Hgr & Hretry & Hre).
  exists st1. repeat split; auto.
  unfold run, bind. rewrite Hrun. unfold get_state.
  rewrite Hgr, contains_existsb, Hb, <- contains_existsb, Hfree. reflexivity.
Qed.

End Run.

Section Escalation.

Variable axios : value -> nat -> promise.

(** Tier 1 exhausted with a re-attempt policy of [max = k]: the run goes
    on as the re-attempt phase, from a state in which the group is the
    last entry of the registry and the primitive is given [k - 1]. *)
Lemma run_escalates (st : state) (g : string) (m k : nat) (a : obj) :
  resolved_group st = Some (VStr g) ->
  blockedGroups.contains (VStr g) st = false ->
  integer_of (property (VObj (resolved_retry st)) "max") = Some (Z.of_nat m) ->
  the_reAttempt st = Some a ->
  integer_of (property (VObj a) "max") = Some (Z.of_nat k) ->
  (forall i, i <= m -> is_rejected (axios (o_request st) (issued st + i)) = true) ->
  exists st2 a',
    run axios st = _doReAttempt axios st2 /\
    blocked st2 = blocked st ++ [VStr g] /\
    issued st2 = issued st + S m /\
    history st2
    = escalation st m (payload (axios (o_request st) (issued st + m)))
        ++ history st /\
    o_request st2 = o_request st /\
    o_group st2 = VStr g /\
    the_reAttempt st2 = Some a' /\
    integer_of (property (VObj a') "maxRetry") = Some (Z.of_nat k - 1)%Z.
Proof.
  intros Hg Hfree Hmax Ha Hk Hfail.
  assert (Htyped : reAttempt_typed st = true).
  { unfold reAttempt_typed. rewrite Ha.
    destruct (integer_of_is_number _ _ Hk) as [q ->]. reflexivity. }
  destruct (run_unblocked axios st g Hg Htyped Hfree)
    as (st1 & Hrun & Hb & Hi & Hh & Hr & Hgr & Hretry & Hre).
  rewrite Ha in Hre. destruct Hre as (Hsome & q & Hq & Hre).
  assert (Hn : integer_of
                 (property (VObj (assign "maxRetry"
                    (property (VObj (resolved_retry st)) "max") (resolved_retry st)))
                    "maxRetry") = Some (Z.of_nat m))
    by now rewrite property_assign_same.
  assert (Hfail1 : forall i, i <= Z.to_nat (Z.of_nat m) ->
            is_rejected (axios (o_request st1) (issued st1 + i)) = true).
  { intros i Hle. rewrite Hr, Hi. apply Hfail. now rewrite Nat2Z.id in Hle. }
  rewrite Hrun, (_doRetry_escalates axios st1 _ _ Hretry Hn Hfail1 Hsome).
  rewrite Nat2Z.id, Hr, Hi, Hgr.
  rewrite add_fresh
    by (rewrite contains_existsb in *; simpl; now rewrite Hb).
  eexists. exists (assign "maxRetry" (VNum (q - 1)%Q) a).
  split; [reflexivity|].
  unfold escalation, the_reAttempt in *; simpl. rewrite Hb, Hi, Hh, Hr.
  repeat split; auto.
  rewrite lookup_assign_same. apply integer_of_pred. now rewrite <- Hq.
Qed.

End Escalation.

Section ReAttempting.

Variable axios : value -> nat -> promise.

Lemma run_reAttempts_exhausted (st : state) (g : string) (m k : nat) (a : obj) :
  resolved_group st = Some (VStr g) ->
  blockedGroups.contains (VStr g) st = false ->
  integer_of (property (VObj (resolved_retry st)) "max") = Some (Z.of_nat m) ->
  the_reAttempt st = Some a ->
  integer_of (property (VObj a) "max") = Some (Z.of_nat k) ->
  1 <= k ->
  (forall i, i <= m -> is_rejected (axios (o_request st) (issued st + i)) = true) ->
  (forall i, i < k ->
     is_rejected (axios (o_request st) (issued st + S m + i)) = true) ->
  exists st',
    run axios st
    = (Returns (Rejected (failure "Re-attempts of request failed." "err"
                  (payload (axios (o_request st) (issued st + S m + (k - 1)))))),
       st') /\
    issued st' = issued st + S m + k /\
    history st'
    = (Publish "reAttemptsFailed" "Re-attempts of request failed.", blocked st)
        :: repeat (Request Tier2 (o_request st), blocked st ++ [VStr g]) k
        ++ escalation st m (payload (axios (o_request st) (issued st + m)))
        ++ history st /\
    blocked st' = blocked st.
Proof.
  intros Hg Hfree Hmax Ha Hk Hk1 Hfail1 Hfail2.
  destruct (run_escalates axios st g m k a Hg Hfree Hmax Ha Hk Hfail1)
    as (st2 & a' & Hrun & Hb & Hi & Hh & Hr & Hgr & Ha' & Hn).
  assert (Hto : Z.to_nat (Z.of_nat k - 1) = k - 1) by lia.
  rewrite Hrun, (_doReAttempt_exhausted axios st2 a' _ Ha' Hn).
  - rewrite Hto, Hr, Hi, Hgr. eexists. split; [reflexivity|].
    rewrite contains_existsb in Hfree.
    rewrite (remove_last (blocked st) g) by assumption.
    replace (S (k - 1)) with k by lia.
    unfold sent, escalation; simpl. rewrite Hb, Hi, Hh, Hr.
    repeat split; auto.
  - intros i Hle. rewrite Hr, Hi. apply Hfail2. lia.
Qed.

Lemma run_reAttempt_succeeds
    (st : state) (g : string) (m k j : nat) (a : obj) (res : value) :
  resolved_group st = Some (VStr g) ->
  blockedGroups.contains (VStr g) st = false ->
  integer_of (property (VObj (resolved_retry st)) "max") = Some (Z.of_nat m) ->
  the_reAttempt st = Some a ->
  integer_of (property (VObj a) "max") = Some (Z.of_nat k) ->
  j < k ->
  (forall i, i <= m -> is_rejected (axios (o_request st) (issued st + i)) = true) ->
  (forall i, i < j ->
     is_rejected (axios (o_request st) (issued st + S m + i)) = true) ->
  axios (o_request st) (issued st + S m + j) = Resolved res ->
  exists st',
    run axios st = (Returns (Resolved res), st') /\
    issued st' = issued st + S m + S j /\
    history st'
    = repeat (Request Tier2 (o_request st), blocked st ++ [VStr g]) (S j)
        ++ escalation st m (payload (axios (o_request st) (issued st + m)))
        ++ history st /\
    blocked st' = blocked st.
Proof.
  intros Hg Hfree Hmax Ha Hk Hj Hfail1 Hfail2 Hok.
  destruct (run_escalates axios st g m k a Hg Hfree Hmax Ha Hk Hfail1)
    as (st2 & a' & Hrun & Hb & Hi & Hh & Hr & Hgr & Ha' & Hn).
  rewrite Hrun, (_doReAttempt_success axios st2 a' _ j res Ha' Hn).
  - rewrite Hgr. eexists. split; [reflexivity|].
    rewrite contains_existsb in Hfree.
    rewrite (remove_last (blocked st) g) by assumption.
    unfold sent, escalation; simpl. rewrite Hb, Hi, Hh, Hr.
    repeat split; auto.
  - lia.
  - intros i Hlt. rewrite Hr, Hi. now apply Hfail2.
  - now rewrite Hr, Hi.
Qed.

End ReAttempting.

(** ** The policy resolver *)

Lemma fold_assign_keeps (f : string -> value) (key : string) (keys : list string) :
  forall acc,
    lookup key acc = Some (f key) ->
    lookup key (fold_left (fun acc k => assign k (f k) acc) keys acc) = Some (f key).
Proof.
  induction keys as [|k rest IH]; intros acc Hacc; simpl; [assumption|].
  apply IH. destruct (String.eqb_spec key k) as [->|Hne].
  - apply lookup_assign_same.
  - now rewrite lookup_assign_other.
Qed.

Lemma fold_assign_sets (f : string -> value) (key : string) (keys : list string) :
  forall acc,
    In key keys ->
    lookup key (fold_left (fun acc k => assign k (f k) acc) keys acc) = Some (f key).
Proof.
  induction keys as [|k rest IH]; intros acc Hin; simpl; [contradiction|].
  destruct Hin as [->|Hin].
  - apply fold_assign_keeps, lookup_assign_same.
  - now apply IH.
Qed.

Lemma override_property (given : value) (defaults : obj) (key : string) :
  In key (Object_keys (VObj defaults)) ->
  property (VObj (options.override given defaults)) key
  = js_or (property given key) (property (VObj defaults) key).
Proof.
  intros Hin. unfold options.override, property at 1.
  now rewrite (fold_assign_sets
    (fun k => js_or (property given k) (property (VObj defaults) k))).
Qed.

(** ** The registry of strategies *)

Lemma get_after_assign_same (name : string) (bundle : value) (st : state) :
  strategies.get name (set_registered (assign name bundle (registered st)) st)
  = if is_undefined bundle then VBool false else bundle.
Proof.
  unfold strategies.get, lookup_chain. cbn [registered set_registered].
  now rewrite lookup_assign_same.
Qed.

Lemma get_after_assign_other (name name' : string) (bundle : value) (st : state) :
  name' <> name ->
  strategies.get name' (set_registered (assign name bundle (registered st)) st)
  = strategies.get name' st.
Proof.
  intros Hne. unfold strategies.get, lookup_chain. cbn [registered set_registered].
  now rewrite lookup_assign_other.
Qed.

(** ** Strategies applied to a configuration *)

Lemma _strategyHelper_truthy (key : string) (v : value) :
  truthy v = true -> _strategyHelper key v = setter key v.
Proof. intros H. unfold _strategyHelper. now rewrite H. Qed.

Lemma _strategyHelper_falsy (key : string) (v : value) (st : state) :
  truthy v = false -> _strategyHelper key v st = (Returns tt, st).
Proof. intros H. unfold _strategyHelper. now rewrite H. Qed.

Lemma bind_pointwise {A B : Type} (m : M A) (f g : A -> M B) (st : state) :
  (forall a st', f a st' = g a st') -> bind m f st = bind m g st.
Proof. intros H. unfold bind. destruct (m st) as [[a| |] st']; auto. Qed.

Lemma for_each_truthy (strategy : value) (keys : list string) (st : state) :
  for_each keys (fun key => _strategyHelper key (property strategy key)) st
  = for_each (filter (fun key => truthy (property strategy key)) keys)
             (fun key => setter key (property strategy key)) st.
Proof.
  revert st; induction keys as [|k rest IH]; intros st; simpl; [reflexivity|].
  destruct (truthy (property strategy k)) eqn:E; simpl.
  - rewrite (_strategyHelper_truthy _ _ E). now apply bind_pointwise.
  - unfold bind at 1. rewrite (_strategyHelper_falsy _ _ _ E). apply IH.
Qed.

Lemma get_unregistered (name : string) (st : state) :
  lookup name (registered st) = None ->
  lookup name Object_prototype = None ->
  strategies.get name st = VBool false.
Proof. intros H Hp. unfold strategies.get, lookup_chain. now rewrite H, Hp. Qed.

Lemma Object_prototype_members (name : string) (w : value) :
  lookup name Object_prototype = Some w -> w = VObj [].
Proof.
  unfold Object_prototype. simpl.
  repeat match goal with
         | |- context [if ?c then _ else _] => destruct c
         end;
    congruence.
Qed.

Lemma get_inherited (name : string) (st : state) :
  lookup name (registered st) = None ->
  lookup name Object_prototype <> None ->
  strategies.get name st = VObj [].
Proof.
  intros H Hp. unfold strategies.get, lookup_chain. rewrite H.
  destruct (lookup name Object_prototype) as [w|] eqn:E; [|congruence].
  now rewrite (Object_prototype_members _ _ E).
Qed.

Lemma get_registered (name : string) (b : value) (st : state) :
  lookup name (registered st) = Some b ->
  strategies.get name st = if is_undefined b then VBool false else b.
Proof. intros H. unfold strategies.get, lookup_chain. now rewrite H. Qed.

Lemma setter_returns (key : string) (v : value) (st : state) :
  is_setter key = true -> exists st', setter key v st = (Returns tt, st').
Proof.
  unfold is_setter, setter. intros H.
  destruct (String.eqb key "retry"); [eexists; reflexivity|].
  destruct (String.eqb key "request"); [eexists; reflexivity|].
  destruct (String.eqb key "reAttempt"); [eexists; reflexivity|].
  destruct (String.eqb key "group"); [eexists; reflexivity | discriminate].
Qed.

(** The loop over a bundle that calls setters only runs to its end. *)
Lemma for_each_setters_returns (strategy : value) (keys : list string) (st : state) :
  forallb (fun key => negb (truthy (property strategy key)) || is_setter key) keys
  = true ->
  exists st',
    for_each keys (fun key => _strategyHelper key (property strategy key)) st
    = (Returns tt, st').
Proof.
  revert st; induction keys as [|k rest IH]; intros st H; simpl in *.
  - eexists; reflexivity.
  - apply andb_true_iff in H as [Hk Hrest]. unfold bind.
    destruct (truthy (property strategy k)) eqn:E; simpl in Hk.
    + rewrite (_strategyHelper_truthy _ _ E).
      destruct (setter_returns k (property strategy k) st Hk) as [st1 ->].
      now apply IH.
    + rewrite (_strategyHelper_falsy _ _ _ E). now apply IH.
Qed.

(** ** Falsy values in a bundle *)

Lemma setter_frame (key : string) (v : value) (st : state) :
  let st' := snd (setter key v st) in
  (key <> "retry" -> o_retry st' = o_retry st) /\
  (key <> "request" -> o_request st' = o_request st) /\
  (key <> "reAttempt" -> o_reAttempt st' = o_reAttempt st) /\
  (key <> "group" -> o_group st' = o_group st) /\
  defaults_retry st' = defaults_retry st /\
  defaults_reAttempt st' = defaults_reAttempt st.
Proof.
  unfold setter.
  destruct (String.eqb_spec key "retry") as [->|];
    [|destruct (String.eqb_spec key "request") as [->|];
      [|destruct (String.eqb_spec key "reAttempt") as [->|];
        [|destruct (String.eqb_spec key "group") as [->|]]]];
    simpl; repeat split; intros; congruence.
Qed.

Lemma _strategyHelper_frame (strategy : value) (key : string) (st : state) :
  let st' := snd (_strategyHelper key (property strategy key) st) in
  (truthy (property strategy "retry") = false -> o_retry st' = o_retry st) /\
  (truthy (property strategy "request") = false -> o_request st' = o_request st) /\
  (truthy (property strategy "reAttempt") = false -> o_reAttempt st' = o_reAttempt st) /\
  (truthy (property strategy "group") = false -> o_group st' = o_group st) /\
  defaults_retry st' = defaults_retry st /\
  defaults_reAttempt st' = defaults_reAttempt st.
Proof.
  destruct (truthy (property strategy key)) eqn:E.
  - rewrite (_strategyHelper_truthy _ _ E).
    destruct (setter_frame key (property strategy key) st)
      as (H1 & H2 & H3 & H4 & H5 & H6).
    repeat split; try assumption; intros Hf;
      [apply H1|apply H2|apply H3|apply H4]; intros ->; congruence.
  - rewrite (_strategyHelper_falsy _ _ _ E). simpl. repeat split; auto.
Qed.

Lemma apply_keys_frame (strategy : value) (keys : list string) (st : state) :
  let st' := snd (for_each keys
                    (fun key => _strategyHelper key (property strategy key)) st) in
  (truthy (property strategy "retry") = false -> o_retry st' = o_retry st) /\
  (truthy (property strategy "request") = false -> o_request st' = o_request st) /\
  (truthy (property strategy "reAttempt") = false -> o_reAttempt st' = o_reAttempt st) /\
  (truthy (property strategy "group") = false -> o_group st' = o_group st) /\
  defaults_retry st' = defaults_retry st /\
  defaults_reAttempt st' = defaults_reAttempt st.
Proof.
  revert st; induction keys as [|k rest IH]; intros st; simpl;
    [repeat split; auto|].
  pose proof (_strategyHelper_frame strategy k st) as Hk. simpl in Hk.
  unfold bind.
  destruct (_strategyHelper k (property strategy k) st) as [[[]| |] st1];
    simpl in Hk |- *; auto.
  specialize (IH st1). simpl in IH.
  destruct Hk as (H1 & H2 & H3 & H4 & H5 & H6), IH as (I1 & I2 & I3 & I4 & I5 & I6).
  repeat split; try congruence; intros Hf;
    [rewrite I1, H1 | rewrite I2, H2 | rewrite I3, H3 | rewrite I4, H4]; auto.
Qed.

(** * The claims *)

(** C1. While a group [G] is in the registry of blocked groups, a [run]
    configured with group [G] (set by the caller, or taken from the url of
    the request) settles as rejected with the message "Requests are
    currently blocked by Retry library.", and the HTTP client is not called:
    the number of requests issued and the whole history are as before. *)
Theorem run_blocked_group_rejects
    (axios : value -> nat -> promise) (st : state) (G : string) :
  resolved_group st = Some (VStr G) ->
  reAttempt_typed st = true ->
  blockedGroups.contains (VStr G) st = true ->
  exists st',
    run axios st = (Returns (Rejected blocked_message), st') /\
    issued st' = issued st /\
    history st' = history st /\
    blocked st' = blocked st.
Proof.
  intros Hg Ha Hblocked.
  destruct (_configure_spec st (VStr G) Hg Ha)
    as (st1 & Hrun & Hb & Hi & Hh & _ & _ & Hgr & _).
  exists st1. repeat split; auto.
  unfold run, bind. rewrite Hrun. unfold get_state.
  rewrite Hgr, contains_existsb, Hb, <- contains_existsb, Hblocked. reflexivity.
Qed.

Lemma run_blocked_group_rejects_witness :
  resolved_group while_blocked = Some (VStr "http://localhost:8080/bad-url") /\
  reAttempt_typed while_blocked = true /\
  blockedGroups.contains (VStr "http://localhost:8080/bad-url") while_blocked = true /\
  exists st',
    run (network_back_after 0) while_blocked = (Returns (Rejected blocked_message), st') /\
    issued st' = issued while_blocked /\
    history st' = history while_blocked /\
    blocked st' = blocked while_blocked.
Proof.
  split; [reflexivity|]. split; [reflexivity|]. split; [reflexivity|].
  apply (run_blocked_group_rejects (network_back_after 0) while_blocked
           "http://localhost:8080/bad-url"); reflexivity.
Defined.

(** C2, amended.  Tier 1 fails on all its [m + 1] tries and a re-attempt
    policy with [max = k], [1 <= k], is set.  Then the group is added to
    the registry at the transition (it is absent at every tier-1 request,
    at the [retriesFailed] event and at the progress notification, and
    present at every tier-2 request), and it is removed when the phase ends,
    whichever way it ends.  The phase makes [k] requests when all of them
    fail, the first re-attempt and [k - 1] retries, and [j + 1 <= k]
    requests when request number [j + 1] is the first to succeed. *)
Theorem reAttempt_phase_blocks_then_unblocks
    (axios : value -> nat -> promise) (st : state) (g : string)
    (m k : nat) (a : obj) :
  resolved_group st = Some (VStr g) ->
  blockedGroups.contains (VStr g) st = false ->
  integer_of (property (VObj (resolved_retry st)) "max") = Some (Z.of_nat m) ->
  the_reAttempt st = Some a ->
  integer_of (property (VObj a) "max") = Some (Z.of_nat k) ->
  1 <= k ->
  (forall i, i <= m -> is_rejected (axios (o_request st) (issued st + i)) = true) ->
  ((forall i, i < k ->
      is_rejected (axios (o_request st) (issued st + S m + i)) = true) ->
   exists reason st',
     run axios st = (Returns (Rejected reason), st') /\
     issued st' = issued st + S m + k /\
     history st'
     = (Publish "reAttemptsFailed" "Re-attempts of request failed.", blocked st)
         :: repeat (Request Tier2 (o_request st), blocked st ++ [VStr g]) k
         ++ escalation st m (payload (axios (o_request st) (issued st + m)))
         ++ history st /\
     blocked st' = blocked st /\
     blockedGroups.contains (VStr g) st' = false)
  /\
  (forall j res,
     j < k ->
     (forall i, i < j ->
        is_rejected (axios (o_request st) (issued st + S m + i)) = true) ->
     axios (o_request st) (issued st + S m + j) = Resolved res ->
     exists st',
       run axios st = (Returns (Resolved res), st') /\
       issued st' = issued st + S m + S j /\
       history st'
       = repeat (Request Tier2 (o_request st), blocked st ++ [VStr g]) (S j)
           ++ escalation st m (payload (axios (o_request st) (issued st + m)))
           ++ history st /\
       blocked st' = blocked st /\
       blockedGroups.contains (VStr g) st' = false).
Proof.
  intros Hg Hfree Hmax Ha Hk Hk1 Hfail1. split.
  - intros Hfail2.
    destruct (run_reAttempts_exhausted axios st g m k a
                Hg Hfree Hmax Ha Hk Hk1 Hfail1 Hfail2)
      as (st' & Hrun & Hi & Hh & Hb).
    eexists. exists st'. repeat split; eauto.
    rewrite contains_existsb in *. now rewrite Hb.
  - intros j res Hj Hfail2 Hok.
    destruct (run_reAttempt_succeeds axios st g m k j a res
                Hg Hfree Hmax Ha Hk Hj Hfail1 Hfail2 Hok)
      as (st' & Hrun & Hi & Hh & Hb).
    exists st'. repeat split; eauto.
    rewrite contains_existsb in *. now rewrite Hb.
Qed.

Lemma reAttempt_phase_blocks_then_unblocks_witness :
  (exists reason st',
     run network_down makeFailingRequest = (Returns (Rejected reason), st') /\
     issued st' = 0 + 3 + 3 /\
     history st'
     = (Publish "reAttemptsFailed" "Re-attempts of request failed.", [])
         :: repeat (Request Tier2 badRequestConfig,
                    [VStr "http://localhost:8080/bad-url"]) 3
         ++ escalation makeFailingRequest 2 (VStr "Network Error")
         ++ [] /\
     blocked st' = [] /\
     blockedGroups.contains (VStr "http://localhost:8080/bad-url") st' = false)
  /\
  (exists st',
     run (network_back_after 4) makeFailingRequest
     = (Returns (Resolved (VStr "OK")), st') /\
     issued st' = 0 + 3 + 2 /\
     history st'
     = repeat (Request Tier2 badRequestConfig,
               [VStr "http://localhost:8080/bad-url"]) 2
         ++ escalation makeFailingRequest 2 (VStr "Network Error")
         ++ [] /\
     blocked st' = [] /\
     blockedGroups.contains (VStr "http://localhost:8080/bad-url") st' = false).
Proof.
  split.
  - refine (proj1 (reAttempt_phase_blocks_then_unblocks network_down
                     makeFailingRequest "http://localhost:8080/bad-url" 2 3
                     options.defaults.reAttempt
                     eq_refl eq_refl eq_refl eq_refl eq_refl _ _) _).
    + lia.
    + intros i Hi. reflexivity.
    + intros i Hi. reflexivity.
  - refine (proj2 (reAttempt_phase_blocks_then_unblocks (network_back_after 4)
                     makeFailingRequest "http://localhost:8080/bad-url" 2 3
                     options.defaults.reAttempt
                     eq_refl eq_refl eq_refl eq_refl eq_refl _ _)
                  1 (VStr "OK") _ _ eq_refl).
    + lia.
    + intros [|[|[|i]]] Hi; (reflexivity || lia).
    + lia.
    + intros [|i] Hi; (reflexivity || lia).
Defined.

(** C2 as stated fails: with [reAttempt.max = 3] and a client that always
    fails, the re-attempt phase makes 3 requests, not 3 - 1. *)
Lemma reAttempt_phase_makes_k_requests :
  the_reAttempt makeFailingRequest = Some options.defaults.reAttempt /\
  integer_of (property (VObj options.defaults.reAttempt) "max") = Some 3%Z /\
  requests_of Tier1 (history (snd (run network_down makeFailingRequest))) = 3 /\
  requests_of Tier2 (history (snd (run network_down makeFailingRequest))) = 3 /\
  requests_of Tier2 (history (snd (run network_down makeFailingRequest))) <> 3 - 1.
Proof. repeat split; try (vm_compute; reflexivity). vm_compute. discriminate. Qed.

(** C3, amended.  When the executor fails on every try and no re-attempt
    policy is set, [run] rejects with message "Request failed." and the
    last error under [error], after [retry.max + 1] requests: [_configure]
    copies [retry.max] into [retry.maxRetry], the number of retries the
    primitive makes after the first try.  The registry is the same at every
    event and at the end, so the group is never added to it. *)
Theorem retries_exhausted_without_reAttempt
    (axios : value -> nat -> promise) (st : state) (g : string) (m : nat) :
  resolved_group st = Some (VStr g) ->
  blockedGroups.contains (VStr g) st = false ->
  o_reAttempt st = None ->
  integer_of (property (VObj (resolved_retry st)) "max") = Some (Z.of_nat m) ->
  (forall i, i <= m -> is_rejected (axios (o_request st) (issued st + i)) = true) ->
  exists st',
    run axios st
    = (Returns (Rejected (failure "Request failed." "error"
                  (payload (axios (o_request st) (issued st + m))))),
       st') /\
    issued st' = issued st + S m /\
    history st'
    = (Publish "retriesFailed" "Request failed.", blocked st)
        :: repeat (Request Tier1 (o_request st), blocked st) (S m)
        ++ history st /\
    blocked st' = blocked st /\
    exists o, the_retry st' = Some o /\
              property (VObj o) "maxRetry"
              = property (VObj (resolved_retry st)) "max".
Proof.
  intros Hg Hfree Hnone Hmax Hfail.
  assert (Htyped : reAttempt_typed st = true)
    by (unfold reAttempt_typed, the_reAttempt; now rewrite Hnone).
  destruct (run_unblocked axios st g Hg Htyped Hfree)
    as (st1 & Hrun & Hb & Hi & Hh & Hr & Hgr & Hretry & Hre).
  unfold the_reAttempt in Hre. rewrite Hnone in Hre. simpl in Hre.
  assert (Hn : integer_of
                 (property (VObj (assign "maxRetry"
                    (property (VObj (resolved_retry st)) "max") (resolved_retry st)))
                    "maxRetry") = Some (Z.of_nat m))
    by now rewrite property_assign_same.
  assert (Hfail1 : forall i, i <= Z.to_nat (Z.of_nat m) ->
            is_rejected (axios (o_request st1) (issued st1 + i)) = true).
  { intros i Hle. rewrite Hr, Hi. apply Hfail. now rewrite Nat2Z.id in Hle. }
  rewrite Hrun, (_doRetry_exhausted axios st1 _ _ Hretry Hn Hfail1 Hre).
  rewrite Nat2Z.id, Hr, Hi. eexists. split; [reflexivity|].
  unfold the_retry in *. unfold sent; simpl. rewrite Hb, Hi, Hh, Hr.
  repeat split; auto.
  eexists. split; [exact Hretry|]. apply property_assign_same.
Qed.

Lemma retries_exhausted_without_reAttempt_witness :
  exists st',
    run network_down retry_only
    = (Returns (Rejected (failure "Request failed." "error" (VStr "Network Error"))),
       st') /\
    issued st' = 3 /\
    history st'
    = (Publish "retriesFailed" "Request failed.", [])
        :: repeat (Request Tier1 badRequestConfig, []) 3 /\
    blocked st' = [] /\
    exists o, the_retry st' = Some o /\ property (VObj o) "maxRetry" = num 2.
Proof.
  apply (retries_exhausted_without_reAttempt network_down retry_only
           "http://localhost:8080/bad-url" 2).
  - reflexivity.
  - reflexivity.
  - reflexivity.
  - reflexivity.
  - intros i Hi. reflexivity.
Defined.

(** C3 as stated fails: with [retry.max = 2], no re-attempt policy and a
    client that always fails, [run] rejects after 3 requests, not 2. *)
Lemma retries_exhausted_after_max_plus_one :
  o_reAttempt retry_only = None /\
  integer_of (property (VObj (resolved_retry retry_only)) "max") = Some 2%Z /\
  fst (run network_down retry_only)
  = Returns (Rejected (failure "Request failed." "error" (VStr "Network Error"))) /\
  issued (snd (run network_down retry_only)) = 3 /\
  issued (snd (run network_down retry_only)) <> issued retry_only + 2.
Proof. repeat split; try (vm_compute; reflexivity). vm_compute. discriminate. Qed.

(** C4. When the executor first succeeds on try number [j + 1] and that is
    within [retry.max] tries ([j < m]), [run] resolves with the result of
    that try; the only requests made are the [j + 1] tier-1 tries, so the
    re-attempt phase makes none; and the registry is the same at every
    event and at the end, so the group is never added to it. *)
Theorem run_resolves_within_retries
    (axios : value -> nat -> promise) (st : state) (g : string)
    (m j : nat) (res : value) :
  resolved_group st = Some (VStr g) ->
  reAttempt_typed st = true ->
  blockedGroups.contains (VStr g) st = false ->
  integer_of (property (VObj (resolved_retry st)) "max") = Some (Z.of_nat m) ->
  j < m ->
  (forall i, i < j -> is_rejected (axios (o_request st) (issued st + i)) = true) ->
  axios (o_request st) (issued st + j) = Resolved res ->
  exists st',
    run axios st = (Returns (Resolved res), st') /\
    issued st' = issued st + S j /\
    history st'
    = repeat (Request Tier1 (o_request st), blocked st) (S j) ++ history st /\
    blocked st' = blocked st /\
    blockedGroups.contains (VStr g) st' = false.
Proof.
  intros Hg Ha Hfree Hmax Hj Hfail Hok.
  destruct (run_unblocked axios st g Hg Ha Hfree)
    as (st1 & Hrun & Hb & Hi & Hh & Hr & Hgr & Hretry & _).
  exists (sent Tier1 (S j) st1).
  assert (Hn : integer_of
                 (property (VObj (assign "maxRetry"
                    (property (VObj (resolved_retry st)) "max") (resolved_retry st)))
                    "maxRetry") = Some (Z.of_nat m))
    by now rewrite property_assign_same.
  rewrite Hrun.
  rewrite (_doRetry_success axios st1 _ _ j res Hretry Hn).
  - unfold sent; simpl. rewrite Hb, Hi, Hh, Hr. repeat split; auto.
  - rewrite Nat2Z.id. lia.
  - intros i Hlt. rewrite Hr, Hi. now apply Hfail.
  - now rewrite Hr, Hi.
Qed.

Lemma run_resolves_within_retries_witness :
  exists st',
    run (network_back_after 2) three_retries = (Returns (Resolved (VStr "OK")), st') /\
    issued st' = 3 /\
    history st' = repeat (Request Tier1 badRequestConfig, []) 3 /\
    blocked st' = [] /\
    blockedGroups.contains (VStr "http://localhost:8080/bad-url") st' = false.
Proof.
  apply (run_resolves_within_retries (network_back_after 2) three_retries
           "http://localhost:8080/bad-url" 3 2 (VStr "OK")).
  - reflexivity.
  - reflexivity.
  - reflexivity.
  - reflexivity.
  - lia.
  - intros [|[|i]] Hi; [reflexivity | reflexivity | lia].
  - reflexivity.
Defined.

(** C5. The resolver returns the defaults object itself when [given] is
    falsy (absent) or has no keys.  Otherwise it returns a new object that
    has, for every key of [defaults], [given[key]] if that is truthy and
    [defaults[key]] if not; so an [interval] of [0] is replaced by the
    default interval. *)
Theorem parse_resolves_over_defaults (given : value) (defaults : obj) :
  (truthy given = false \/ Object_keys given = [] ->
   options.parse given defaults = TheDefaults /\
   deref defaults (options.parse given defaults) = defaults)
  /\
  (truthy given = true -> Object_keys given <> [] ->
   exists result,
     options.parse given defaults = Own result /\
     (forall key, In key (Object_keys (VObj defaults)) ->
        property (VObj result) key
        = if truthy (property given key) then property given key
          else property (VObj defaults) key) /\
     (In "interval" (Object_keys (VObj defaults)) ->
      property given "interval" = num 0 ->
      property (VObj result) "interval" = property (VObj defaults) "interval")).
Proof.
  unfold options.parse. split.
  - intros [Hfalsy|Hempty].
    + now rewrite Hfalsy.
    + rewrite Hempty. simpl. now rewrite orb_true_r.
  - intros Htruthy Hkeys. rewrite Htruthy. simpl.
    destruct (Object_keys given) as [|k rest] eqn:E; [contradiction|]. simpl.
    eexists. split; [reflexivity|]. split.
    + intros key Hin. exact (override_property given defaults key Hin).
    + intros Hin H0.
      pose proof (override_property given defaults "interval" Hin) as H.
      rewrite H0 in H. exact H.
Qed.

Lemma parse_resolves_over_defaults_witness :
  options.parse VUndef options.defaults.retry = TheDefaults /\
  options.parse (VObj []) options.defaults.retry = TheDefaults /\
  exists result,
    options.parse (VObj [("interval", num 0); ("max", num 7)]) options.defaults.retry
    = Own result /\
    property (VObj result) "max" = num 7 /\
    property (VObj result) "interval" = num 100.
Proof.
  split; [|split].
  - exact (proj1 (proj1 (parse_resolves_over_defaults VUndef options.defaults.retry)
                        (or_introl eq_refl))).
  - exact (proj1 (proj1 (parse_resolves_over_defaults (VObj []) options.defaults.retry)
                        (or_intror eq_refl))).
  - destruct (proj2 (parse_resolves_over_defaults
                       (VObj [("interval", num 0); ("max", num 7)])
                       options.defaults.retry) eq_refl)
      as (result & Hparse & Hkeys & Hinterval); [discriminate|].
    exists result. split; [exact Hparse|]. split.
    + apply (Hkeys "max"). simpl. auto.
    + apply Hinterval; [simpl; auto | reflexivity].
Defined.

(** C6.  The demo request against a client that always fails: when the
    re-attempts are exhausted the group is out of the registry, the
    [reAttemptsFailed] event is the last one published, and the promise is
    rejected with the message "Re-attempts of request failed."; but the
    cause is stored under [err], and [error] is undefined, where the
    rejection of the retry phase stores it under [error]. *)
Theorem reAttempts_exhausted_rejection_has_no_error_key :
  exists reason st',
    run network_down makeFailingRequest = (Returns (Rejected reason), st') /\
    blockedGroups.contains (VStr "http://localhost:8080/bad-url") st' = false /\
    hd_error (history st')
    = Some (Publish "reAttemptsFailed" "Re-attempts of request failed.", []) /\
    property reason "message" = VStr "Re-attempts of request failed." /\
    property reason "err" = VStr "Network Error" /\
    property reason "error" = VUndef /\
    property (payload (match fst (run network_down retry_only) with
                       | Returns p => p
                       | _ => Resolved VUndef
                       end)) "error" = VStr "Network Error".
Proof.
  do 2 eexists. split; [vm_compute; reflexivity|].
  repeat split; vm_compute; reflexivity.
Qed.

(** C7, amended.  [strategies.add] returns [false] and changes nothing when
    [strategies.get] finds something truthy under the name, as it does for
    a name registered with a truthy bundle and for a name that is not
    registered but that [Object.prototype] provides; so that after a second
    [add] under a registered name the first bundle is still the one [get]
    returns.  When
    [get] finds nothing truthy, as for a name that is not registered and
    that [Object.prototype] does not provide, or for a name registered with
    a falsy value, [add] stores the bundle under the name, leaves every
    other name as it was, and returns [undefined]. *)
Theorem strategies_add_keeps_first_bundle
    (name : string) (bundle : value) (st : state) :
  ((forall b, lookup name (registered st) = Some b ->
              truthy (strategies.get name st) = truthy b) /\
   (lookup name (registered st) = None ->
    lookup name Object_prototype = None ->
    truthy (strategies.get name st) = false) /\
   (lookup name (registered st) = None ->
    lookup name Object_prototype <> None ->
    truthy (strategies.get name st) = true))
  /\
  (truthy (strategies.get name st) = true ->
   strategies.add name bundle st = (VBool false, st))
  /\
  (truthy (strategies.get name st) = false ->
   fst (strategies.add name bundle st) = VUndef /\
   strategies.get name (snd (strategies.add name bundle st))
   = (if is_undefined bundle then VBool false else bundle) /\
   (forall other, other <> name ->
      strategies.get other (snd (strategies.add name bundle st))
      = strategies.get other st))
  /\
  (truthy (strategies.get name st) = false ->
   truthy bundle = true ->
   forall second,
     strategies.add name second (snd (strategies.add name bundle st))
     = (VBool false, snd (strategies.add name bundle st)) /\
     strategies.get name
       (snd (strategies.add name second (snd (strategies.add name bundle st))))
     = bundle).
Proof.
  split.
  { split; [|split].
    - intros b Hb. rewrite (get_registered _ _ _ Hb). now destruct b.
    - intros Hnone Hproto. now rewrite get_unregistered.
    - intros Hnone Hproto. now rewrite get_inherited. }
  unfold strategies.add. split; [|split].
  - intros ->. reflexivity.
  - intros ->. cbn [fst snd]. split; [reflexivity|]. split.
    + apply get_after_assign_same.
    + intros other Hne. now apply get_after_assign_other.
  - intros -> Hbundle second. cbn [snd].
    assert (Hget : strategies.get name
                     (set_registered (assign name bundle (registered st)) st)
                   = bundle).
    { rewrite get_after_assign_same. now destruct bundle. }
    rewrite Hget, Hbundle. cbn [snd]. now split.
Qed.

Lemma strategies_add_keeps_first_bundle_witness :
  strategies.add "custom" (VObj [])
                 (snd (strategies.add "custom" quiet initial_state))
  = (VBool false, snd (strategies.add "custom" quiet initial_state)) /\
  strategies.get "custom"
    (snd (strategies.add "custom" (VObj [])
            (snd (strategies.add "custom" quiet initial_state))))
  = quiet.
Proof.
  exact (proj2 (proj2 (proj2
           (strategies_add_keeps_first_bundle "custom" quiet initial_state)))
               eq_refl eq_refl (VObj [])).
Defined.

(** C7 as stated fails: registering a bundle under a new name returns
    [undefined], not [true]; a name registered with a falsy bundle is
    overwritten by a second [add]; and under a name that is not registered
    but that [Object.prototype] provides, [add] returns [false] and stores
    nothing. *)
Lemma strategies_add_returns_undefined :
  lookup "constructor" (registered initial_state) = None /\
  strategies.add "constructor" quiet initial_state = (VBool false, initial_state) /\
  lookup "custom" (registered initial_state) = None /\
  fst (strategies.add "custom" quiet initial_state) = VUndef /\
  fst (strategies.add "custom" quiet initial_state) <> VBool true /\
  lookup "custom" (registered (snd (strategies.add "custom" (num 0) initial_state)))
  = Some (num 0) /\
  strategies.add "custom" quiet (snd (strategies.add "custom" (num 0) initial_state))
  <> (VBool false, snd (strategies.add "custom" (num 0) initial_state)) /\
  strategies.get "custom"
    (snd (strategies.add "custom" quiet
            (snd (strategies.add "custom" (num 0) initial_state))))
  = quiet.
Proof.
  repeat split; try (vm_compute; reflexivity); vm_compute; discriminate.
Qed.

(** C8, amended.  [runStrategy] with a name for which [strategies.get]
    gives nothing truthy (a name that is not registered and that
    [Object.prototype] does not provide is one) logs an error and returns
    [false] from the call itself: no promise is made, nothing else changes.
    With a name under which [strategies.get] finds a truthy bundle it
    applies, in the order of the keys, every key whose value is truthy as
    the setter of that name, and then is [run], whose promise it returns. *)
Theorem runStrategy_applies_truthy_keys
    (axios : value -> nat -> promise) (name : string) (st : state) :
  (lookup name (registered st) = None ->
   lookup name Object_prototype = None ->
   truthy (strategies.get name st) = false)
  /\
  (truthy (strategies.get name st) = false ->
   runStrategy axios name st = (Returns (inl (VBool false)), log (not_found name) st))
  /\
  (truthy (strategies.get name st) = true ->
   runStrategy axios name st
   = (for_each
        (filter (fun key => truthy (property (strategies.get name st) key))
                (Object_keys (strategies.get name st)))
        (fun key => setter key (property (strategies.get name st) key)) ;;
      p <- run axios ;;
      ret (inr p))%js st).
Proof.
  split; [|split].
  - intros H Hp. now rewrite get_unregistered.
  - intros H. unfold runStrategy, bind at 1, get_state at 1.
    rewrite H. reflexivity.
  - intros H. unfold runStrategy, bind at 1, get_state at 1.
    rewrite H. cbn [negb].
    unfold bind at 1. rewrite for_each_truthy. reflexivity.
Qed.

Lemma runStrategy_applies_truthy_keys_witness :
  truthy (strategies.get "nope" initial_state) = false /\
  runStrategy network_down "nope" initial_state
  = (Returns (inl (VBool false)), log (not_found "nope") initial_state) /\
  runStrategy network_down "quiet" with_quiet
  = (retry (VObj [("max", num 1)]) ;;
     reAttempt (VObj [("max", num 1)]) ;;
     ret tt ;;
     p <- run network_down ;;
     ret (inr p))%js with_quiet.
Proof.
  split; [|split].
  - exact (proj1 (runStrategy_applies_truthy_keys network_down "nope"
                    initial_state) eq_refl eq_refl).
  - exact (proj1 (proj2 (runStrategy_applies_truthy_keys network_down "nope"
                           initial_state)) eq_refl).
  - etransitivity.
    + exact (proj2 (proj2 (runStrategy_applies_truthy_keys network_down "quiet"
                             with_quiet)) eq_refl).
    + vm_compute. reflexivity.
Defined.

(** C8 as stated fails: the bundle "quiet" has the key [group] with the
    empty string for value.  Applying every key as its setter would leave
    the configuration with group [""]; [runStrategy] leaves it with the
    group "api" it had.  And under the name "toString", which is not
    registered but which [Object.prototype] provides, [runStrategy] logs
    nothing and does not return [false]: it is [run]. *)
Lemma runStrategy_skips_empty_group :
  lookup "toString" (registered with_quiet) = None /\
  fst (runStrategy network_down "toString" with_quiet)
  <> Returns (inl (VBool false)) /\
  runStrategy network_down "toString" with_quiet
  = (p <- run network_down ;; ret (inr p))%js with_quiet /\
  lookup "quiet" (registered with_quiet) = Some quiet /\
  property quiet "group" = VStr "" /\
  o_group with_quiet = VStr "api" /\
  o_group (snd (runStrategy_every_key network_down "quiet" with_quiet)) = VStr "" /\
  o_group (snd (runStrategy network_down "quiet" with_quiet)) = VStr "api" /\
  runStrategy network_down "quiet" with_quiet
  <> runStrategy_every_key network_down "quiet" with_quiet.
Proof.
  repeat split; try (vm_compute; reflexivity).
  - vm_compute. discriminate.
  - intros H. apply (f_equal (fun r => o_group (snd r))) in H.
    vm_compute in H. discriminate.
Qed.

(** C9. With no request and no group ever set, [run] throws: reading the
    url of the absent request is a TypeError raised by the call itself, so
    no promise is returned, rejected or otherwise, and nothing was sent. *)
Theorem run_throws_without_request_and_group
    (axios : value -> nat -> promise) (st : state) :
  o_request st = VUndef ->
  o_group st = VUndef ->
  exists st',
    run axios st = (Throws "TypeError", st') /\
    issued st' = issued st /\
    history st' = history st.
Proof.
  destruct st as [bl dr da reg r rq a gr n h]; simpl.
  intros -> ->.
  destruct r as [r|]; eexists; (split; [reflexivity | split; reflexivity]).
Qed.

Lemma run_throws_without_request_and_group_witness :
  exists st',
    run network_down initial_state = (Throws "TypeError", st') /\
    issued st' = 0 /\
    history st' = [].
Proof.
  apply (run_throws_without_request_and_group network_down initial_state);
    reflexivity.
Defined.

(** C10. A value of the bundle that is falsy is not handed to any setter:
    [_strategyHelper] returns at once and leaves the state as it is.  So
    for a bundle whose keys with a truthy value name setters, the loop of
    [runStrategy] over the bundle runs to its end, and a setting whose
    value in the bundle is falsy is afterwards what it was before, with the
    defaults it may alias untouched. *)
Theorem falsy_bundle_value_keeps_setting
    (axios : value -> nat -> promise) (name : string) (st : state) :
  (forall key v st0, truthy v = false -> _strategyHelper key v st0 = (Returns tt, st0))
  /\
  (truthy (strategies.get name st) = true ->
   runStrategy axios name st
   = (apply_bundle (strategies.get name st) ;; p <- run axios ;; ret (inr p))%js st)
  /\
  (setters_only (strategies.get name st) = true ->
   exists st',
     apply_bundle (strategies.get name st) st = (Returns tt, st') /\
     (truthy (property (strategies.get name st) "retry") = false ->
      o_retry st' = o_retry st /\ the_retry st' = the_retry st) /\
     (truthy (property (strategies.get name st) "request") = false ->
      o_request st' = o_request st) /\
     (truthy (property (strategies.get name st) "reAttempt") = false ->
      o_reAttempt st' = o_reAttempt st /\ the_reAttempt st' = the_reAttempt st) /\
     (truthy (property (strategies.get name st) "group") = false ->
      o_group st' = o_group st)).
Proof.
  split; [|split].
  - intros key v st0 H. now apply _strategyHelper_falsy.
  - intros H. unfold runStrategy, bind at 1, get_state at 1.
    rewrite H. reflexivity.
  - intros Hsetters.
    destruct (for_each_setters_returns (strategies.get name st)
                (Object_keys (strategies.get name st)) st Hsetters) as [st' Hrun].
    destruct (apply_keys_frame (strategies.get name st)
                (Object_keys (strategies.get name st)) st)
      as (H1 & H2 & H3 & H4 & H5 & H6).
    rewrite Hrun in H1, H2, H3, H4, H5, H6. simpl in H1, H2, H3, H4, H5, H6.
    exists st'. split; [exact Hrun|].
    unfold the_retry, the_reAttempt.
    split; [|split; [|split]]; intros Hf; auto.
    + split; [auto | now rewrite H5, H1].
    + split; [auto | now rewrite H6, H3].
Qed.

Lemma falsy_bundle_value_keeps_setting_witness :
  setters_only (strategies.get "quiet" with_quiet) = true /\
  truthy (property (strategies.get "quiet" with_quiet) "group") = false /\
  exists st',
    apply_bundle (strategies.get "quiet" with_quiet) with_quiet = (Returns tt, st') /\
    o_group st' = VStr "api".
Proof.
  split; [reflexivity|]. split; [reflexivity|].
  destruct (proj2 (proj2 (falsy_bundle_value_keeps_setting network_down "quiet"
                            with_quiet)) eq_refl)
    as (st' & Hrun & _ & _ & _ & Hgroup).
  exists st'. split; [exact Hrun|]. exact (Hgroup eq_refl).
Defined.

(** * Scenarios *)

(** The built-in strategy "resilient" against a client that always fails:
    the first request and 5 retries, then 10 re-attempts, and the group is
    out of the registry at the end. *)
Example runStrategy_resilient :
  let after := snd (runStrategy network_down "resilient"
                      (configured_by (request badRequestConfig))) in
  requests_of Tier1 (history after) = 6 /\
  requests_of Tier2 (history after) = 10 /\
  blocked after = [].
Proof. vm_compute. auto. Qed.

(** [retry()] stores the defaults object itself, so the [maxRetry] that
    [_configure] writes lands in [options.defaults.retry]; a policy given
    by the caller is a new object and leaves the defaults alone. *)
Example _configure_writes_through_the_alias :
  defaults_retry (snd (_configure retry_only))
  = options.defaults.retry ++ [("maxRetry", num 2)] /\
  defaults_retry (snd (_configure three_retries)) = options.defaults.retry /\
  the_retry (snd (_configure three_retries))
  = Some [("max", num 3); ("interval", num 100); ("intervalMultiplicator", num 1);
          ("maxRetry", num 3)].
Proof. vm_compute. auto. Qed.

(** While the demo request is in its re-attempt phase its group is blocked:
    a second [run] for that group is rejected without a request. *)
Example second_run_while_blocked :
  fst (run (network_back_after 0) while_blocked) = Returns (Rejected blocked_message) /\
  issued (snd (run (network_back_after 0) while_blocked)) = 0.
Proof. vm_compute. auto. Qed.

(** * Further properties *)

(** ** [blockedGroups] *)

Lemma strict_equal_string_inv (y : value) (g : string) :
  strict_equal y (VStr g) = true -> y = VStr g.
Proof.
  destruct y; simpl; try discriminate.
  intros H. apply String.eqb_eq in H. now subst.
Qed.

Lemma strict_equal_string_sym (y : value) (g : string) :
  strict_equal (VStr g) y = strict_equal y (VStr g).
Proof. destruct y; simpl; auto. apply String.eqb_sym. Qed.

Lemma existsb_app_last (f : value -> bool) (l : list value) (x : value) :
  existsb f (l ++ [x]) = existsb f l || f x.
Proof. rewrite existsb_app. simpl. now rewrite orb_false_r. Qed.

Lemma distinct_app_last (l : list value) (x : value) :
  distinct (l ++ [x])
  = distinct l && negb (existsb (fun y => strict_equal y x) l).
Proof.
  induction l as [|h rest IH]; simpl; [reflexivity|].
  rewrite existsb_app_last, IH, negb_orb.
  destruct (existsb (fun y => strict_equal h y) rest), (strict_equal h x),
    (distinct rest), (existsb (fun y => strict_equal y x) rest); reflexivity.
Qed.

Lemma existsb_without_first (f : value -> bool) (x : value) (l : list value) :
  existsb f (without_first x l) = true -> existsb f l = true.
Proof.
  induction l as [|y rest IH]; simpl; [auto|].
  destruct (strict_equal y x); simpl.
  - intros ->. apply orb_true_r.
  - destruct (f y); simpl; auto.
Qed.

Lemma distinct_without_first (x : value) (l : list value) :
  distinct l = true -> distinct (without_first x l) = true.
Proof.
  induction l as [|y rest IH]; simpl; [auto|].
  intros H. apply andb_true_iff in H as [Hy Hrest].
  destruct (strict_equal y x); simpl; [assumption|].
  rewrite IH by assumption. rewrite andb_true_r.
  destruct (existsb (fun z => strict_equal y z) (without_first x rest)) eqn:E;
    [|reflexivity].
  apply existsb_without_first in E. now rewrite E in Hy.
Qed.

(** [splice] at the index [indexOf] found removes the first match. *)
Lemma splice1_indexOf (x : value) (l : list value) (i : Z) :
  (0 <= i)%Z ->
  if (blockedGroups.indexOf_from i l x >? -1)%Z
  then blockedGroups.splice1 (Z.to_nat (blockedGroups.indexOf_from i l x - i)) l
       = without_first x l
  else without_first x l = l.
Proof.
  revert i; induction l as [|y rest IH]; intros i Hi; simpl.
  - reflexivity.
  - destruct (strict_equal y x).
    + replace (i >? -1)%Z with true by (symmetry; apply Z.gtb_lt; lia).
      now rewrite Z.sub_diag.
    + specialize (IH (i + 1)%Z ltac:(lia)).
      destruct (blockedGroups.indexOf_from (i + 1) rest x >? -1)%Z eqn:E.
      * destruct (indexOf_from_range rest x (i + 1)) as [Hm|Hge];
          [rewrite Hm in E; discriminate|].
        replace (Z.to_nat (blockedGroups.indexOf_from (i + 1) rest x - i))
          with (S (Z.to_nat (blockedGroups.indexOf_from (i + 1) rest x - (i + 1))))
          by lia.
        simpl. now rewrite IH.
      * now rewrite IH.
Qed.

Lemma remove_without_first (x : value) (st : state) :
  blockedGroups.remove x st = set_blocked (without_first x (blocked st)) st.
Proof.
  unfold blockedGroups.remove, blockedGroups.indexOf.
  pose proof (splice1_indexOf x (blocked st) 0 ltac:(lia)) as H.
  destruct (blockedGroups.indexOf_from 0 (blocked st) x >? -1)%Z.
  - rewrite Z.sub_0_r in H. now rewrite H.
  - rewrite H. now destruct st.
Qed.

Lemma without_first_absent (x : value) (l : list value) :
  existsb (fun y => strict_equal y x) l = false -> without_first x l = l.
Proof.
  induction l as [|y rest IH]; simpl; [reflexivity|].
  intros H. apply orb_false_elim in H as [Hy Hrest].
  now rewrite Hy, IH.
Qed.

Lemma set_blocked_same (st : state) : set_blocked (blocked st) st = st.
Proof. now destruct st. Qed.

(** X1. [blockedGroups.add]: afterwards the group is contained; a second
    [add] of the same group changes nothing; nothing that was contained is
    lost; and membership of every other group name is as before. *)
Theorem blockedGroups_add_blocks (g : string) (st : state) :
  blockedGroups.contains (VStr g) (blockedGroups.add (VStr g) st) = true /\
  blockedGroups.add (VStr g) (blockedGroups.add (VStr g) st)
  = blockedGroups.add (VStr g) st /\
  (forall x, blockedGroups.contains x st = true ->
             blockedGroups.contains x (blockedGroups.add (VStr g) st) = true) /\
  (forall h, h <> g ->
             blockedGroups.contains (VStr h) (blockedGroups.add (VStr g) st)
             = blockedGroups.contains (VStr h) st).
Proof.
  assert (Hin : blockedGroups.contains (VStr g) (blockedGroups.add (VStr g) st) = true).
  { unfold blockedGroups.add.
    destruct (blockedGroups.contains (VStr g) st) eqn:E; simpl; [exact E|].
    rewrite contains_existsb. simpl.
    now rewrite existsb_app_last, strict_equal_string, orb_true_r. }
  split; [exact Hin|]. split; [|split].
  - unfold blockedGroups.add at 1. now rewrite Hin.
  - intros x Hx. unfold blockedGroups.add.
    destruct (blockedGroups.contains (VStr g) st); simpl; [exact Hx|].
    rewrite contains_existsb in *. simpl.
    now rewrite existsb_app_last, Hx.
  - intros h Hne. unfold blockedGroups.add.
    destruct (blockedGroups.contains (VStr g) st); simpl; [reflexivity|].
    rewrite !contains_existsb. simpl. rewrite existsb_app_last. simpl.
    destruct (String.eqb_spec g h); [congruence|]. apply orb_false_r.
Qed.

Lemma existsb_without_other (g h : string) (l : list value) :
  h <> g ->
  existsb (fun y => strict_equal y (VStr h)) (without_first (VStr g) l)
  = existsb (fun y => strict_equal y (VStr h)) l.
Proof.
  intros Hne. induction l as [|y rest IH]; simpl; [reflexivity|].
  destruct (strict_equal y (VStr g)) eqn:E; simpl.
  - apply strict_equal_string_inv in E. subst y. simpl.
    destruct (String.eqb_spec g h); [congruence | reflexivity].
  - now rewrite IH.
Qed.

Lemma existsb_pointwise (f f' : value -> bool) (l : list value) :
  (forall z, f z = f' z) -> existsb f l = existsb f' l.
Proof. intros H. induction l as [|y rest IH]; simpl; [auto | now rewrite H, IH]. Qed.

Lemma existsb_without_same (g : string) (l : list value) :
  distinct l = true ->
  existsb (fun y => strict_equal y (VStr g)) (without_first (VStr g) l) = false.
Proof.
  induction l as [|y rest IH]; simpl; [reflexivity|].
  intros H. apply andb_true_iff in H as [Hy Hrest].
  destruct (strict_equal y (VStr g)) eqn:E; simpl.
  - apply strict_equal_string_inv in E. subst y.
    apply negb_true_iff in Hy. rewrite <- Hy.
    apply existsb_pointwise. intros z. symmetry. apply strict_equal_string_sym.
  - rewrite E. now apply IH.
Qed.

(** X2. [blockedGroups.remove]: removing a group that is not contained
    changes nothing; in a registry without duplicates the group is no
    longer contained afterwards; and membership of every other group name
    is as before. *)
Theorem blockedGroups_remove_unblocks (g : string) (st : state) :
  (blockedGroups.contains (VStr g) st = false ->
   blockedGroups.remove (VStr g) st = st) /\
  (distinct (blocked st) = true ->
   blockedGroups.contains (VStr g) (blockedGroups.remove (VStr g) st) = false) /\
  (forall h, h <> g ->
             blockedGroups.contains (VStr h) (blockedGroups.remove (VStr g) st)
             = blockedGroups.contains (VStr h) st).
Proof.
  rewrite remove_without_first. split; [|split].
  - intros H. rewrite contains_existsb in H.
    rewrite without_first_absent by assumption. apply set_blocked_same.
  - intros H. rewrite contains_existsb. simpl. now apply existsb_without_same.
  - intros h Hne. rewrite !contains_existsb. simpl.
    now apply existsb_without_other.
Qed.

Lemma blockedGroups_remove_unblocks_witness :
  blockedGroups.contains (VStr "http://localhost:8080/bad-url")
    (blockedGroups.remove (VStr "http://localhost:8080/bad-url") two_blocked) = false /\
  blockedGroups.contains (VStr "http://localhost:8080")
    (blockedGroups.remove (VStr "http://localhost:8080/bad-url") two_blocked) = true /\
  blockedGroups.remove (VStr "nowhere") two_blocked = two_blocked.
Proof.
  split; [|split].
  - exact (proj1 (proj2 (blockedGroups_remove_unblocks
                           "http://localhost:8080/bad-url" two_blocked)) eq_refl).
  - etransitivity.
    + refine (proj2 (proj2 (blockedGroups_remove_unblocks
                              "http://localhost:8080/bad-url" two_blocked))
                    "http://localhost:8080" _).
      discriminate.
    + vm_compute. reflexivity.
  - exact (proj1 (blockedGroups_remove_unblocks "nowhere" two_blocked) eq_refl).
Defined.

(** X3. The registry never holds a group twice: when no two of its entries
    are [===], the same is true after [add] and after [remove] of any
    value. *)
Theorem registry_stays_distinct (x : value) (st : state) :
  distinct (blocked st) = true ->
  distinct (blocked (blockedGroups.add x st)) = true /\
  distinct (blocked (blockedGroups.remove x st)) = true.
Proof.
  intros H. split.
  - unfold blockedGroups.add.
    destruct (blockedGroups.contains x st) eqn:E; simpl; [exact H|].
    rewrite contains_existsb in E. now rewrite distinct_app_last, H, E.
  - rewrite remove_without_first. simpl. now apply distinct_without_first.
Qed.

Lemma registry_stays_distinct_witness :
  distinct (blocked (blockedGroups.add (VStr "http://localhost:8080") two_blocked))
  = true /\
  distinct (blocked (blockedGroups.remove (VStr "http://localhost:8080") two_blocked))
  = true.
Proof.
  apply (registry_stays_distinct (VStr "http://localhost:8080") two_blocked).
  reflexivity.
Defined.

(** X4. Blocking a group that is not blocked and then unblocking it gives
    back the state as it was, the order of the registry included. *)
Theorem block_then_unblock_restores (g : string) (st : state) :
  blockedGroups.contains (VStr g) st = false ->
  blockedGroups.remove (VStr g) (blockedGroups.add (VStr g) st) = st.
Proof.
  intros H. rewrite add_fresh by assumption.
  rewrite contains_existsb in H.
  rewrite (remove_last (blocked st) g) by (assumption || reflexivity).
  now destruct st.
Qed.

Lemma block_then_unblock_restores_witness :
  blockedGroups.remove (VStr "api") (blockedGroups.add (VStr "api") two_blocked)
  = two_blocked.
Proof.
  apply (block_then_unblock_restores "api" two_blocked). reflexivity.
Defined.

(** ** [options] *)

Lemma keys_assign_in (k : string) (v : value) (o : obj) :
  In k (map fst o) -> map fst (assign k v o) = map fst o.
Proof.
  induction o as [|[k' w] rest IH]; simpl; [contradiction|].
  intros [->|Hin].
  - now rewrite String.eqb_refl.
  - destruct (String.eqb k' k); simpl; [reflexivity | now rewrite IH].
Qed.

Lemma keys_assign_new (k : string) (v : value) (o : obj) :
  ~ In k (map fst o) -> map fst (assign k v o) = map fst o ++ [k].
Proof.
  induction o as [|[k' w] rest IH]; simpl; [reflexivity|].
  intros Hnot. destruct (String.eqb_spec k' k) as [->|Hne].
  - exfalso. apply Hnot. now left.
  - simpl. rewrite IH; [reflexivity|]. intros Hin. apply Hnot. now right.
Qed.

Lemma fold_assign_keys (f : string -> value) (keys : list string) :
  forall acc,
    NoDup keys ->
    (forall k, In k keys -> ~ In k (map fst acc)) ->
    map fst (fold_left (fun acc k => assign k (f k) acc) keys acc)
    = map fst acc ++ keys.
Proof.
  induction keys as [|k rest IH]; intros acc Hnd Hfresh; simpl.
  - now rewrite app_nil_r.
  - inversion Hnd as [|? ? Hk Hrest]; subst.
    rewrite IH; [|assumption|].
    + rewrite keys_assign_new by (apply Hfresh; now left).
      now rewrite <- app_assoc.
    + intros k' Hin'. rewrite keys_assign_new by (apply Hfresh; now left).
      rewrite in_app_iff. intros [Hacc|[->|[]]].
      * apply (Hfresh k'); [now right | assumption].
      * contradiction.
Qed.

Lemma fold_assign_other (f : string -> value) (key : string) (keys : list string) :
  forall acc,
    ~ In key keys ->
    lookup key (fold_left (fun acc k => assign k (f k) acc) keys acc)
    = lookup key acc.
Proof.
  induction keys as [|k rest IH]; intros acc Hnot; simpl; [reflexivity|].
  rewrite IH by (intros Hin; apply Hnot; now right).
  apply lookup_assign_other. intros ->. apply Hnot. now left.
Qed.

(** X5. The object [options.override] builds has the keys of the defaults,
    in their order, and no others: an option under a key the defaults do
    not have is dropped. *)
Theorem override_has_the_keys_of_defaults (given : value) (defaults : obj) :
  NoDup (Object_keys (VObj defaults)) ->
  Object_keys (VObj (options.override given defaults)) = Object_keys (VObj defaults) /\
  (forall key, ~ In key (Object_keys (VObj defaults)) ->
               property (VObj (options.override given defaults)) key = VUndef).
Proof.
  intros Hnd. unfold options.override. split.
  - simpl. rewrite (fold_assign_keys
      (fun k => js_or (property given k) (property (VObj defaults) k)));
      [reflexivity | exact Hnd | intros k _ []].
  - intros key Hnot. unfold property at 1.
    now rewrite (fold_assign_other
      (fun k => js_or (property given k) (property (VObj defaults) k))).
Qed.

Lemma override_has_the_keys_of_defaults_witness :
  Object_keys (VObj (options.override options_with_timeout options.defaults.retry))
  = ["max"; "interval"; "intervalMultiplicator"] /\
  property (VObj (options.override options_with_timeout options.defaults.retry))
           "timeout" = VUndef.
Proof.
  assert (Hnd : NoDup (Object_keys (VObj options.defaults.retry))).
  { simpl. repeat constructor; simpl; intuition discriminate. }
  destruct (override_has_the_keys_of_defaults options_with_timeout
              options.defaults.retry Hnd) as [Hkeys Hother].
  split; [exact Hkeys|].
  apply Hother. simpl. intuition discriminate.
Defined.

(** X6. A resolved policy has no falsy field where the default is truthy,
    whether [options.parse] returned the defaults or a new object: no
    option can set such a field to [0], [""], [null] or [false]. *)
Theorem parse_keeps_fields_truthy (given : value) (defaults : obj) (key : string) :
  In key (Object_keys (VObj defaults)) ->
  truthy (property (VObj defaults) key) = true ->
  truthy (property (VObj (deref defaults (options.parse given defaults))) key) = true.
Proof.
  intros Hin Hdef. unfold options.parse.
  destruct (negb (truthy given) || (List.length (Object_keys given) =? 0)%nat);
    simpl deref; [exact Hdef|].
  rewrite override_property by assumption. unfold js_or.
  destruct (truthy (property given key)) eqn:E; assumption.
Qed.

Lemma parse_keeps_fields_truthy_witness :
  truthy (property
            (VObj (deref options.defaults.retry
                     (options.parse (VObj [("max", num 0)]) options.defaults.retry)))
            "max") = true.
Proof.
  apply (parse_keeps_fields_truthy (VObj [("max", num 0)]) options.defaults.retry "max").
  - simpl. auto.
  - reflexivity.
Defined.

(** ** [strategies] *)

Lemma add_keeps_truthy (name other : string) (bundle : value) (st : state) :
  truthy (strategies.get name st) = true ->
  strategies.get name (snd (strategies.add other bundle st)) = strategies.get name st.
Proof.
  intros H. unfold strategies.add.
  destruct (truthy (strategies.get other st)) eqn:E; simpl; [reflexivity|].
  apply get_after_assign_other. intros ->. congruence.
Qed.

(** X13. A name registered with a truthy bundle keeps that bundle through
    any sequence of [addStrategy] calls, whatever names and bundles they
    carry: the built-in strategies cannot be replaced. *)
Theorem registered_strategy_survives
    (name : string) (registrations : list (string * value)) (st : state) :
  truthy (strategies.get name st) = true ->
  strategies.get name
    (snd (for_each registrations (fun r => addStrategy (fst r) (snd r)) st))
  = strategies.get name st.
Proof.
  revert st; induction registrations as [|[n b] rest IH]; intros st H; simpl;
    [reflexivity|].
  unfold bind, addStrategy at 1, update. simpl.
  rewrite IH; rewrite add_keeps_truthy; auto.
Qed.

Lemma registered_strategy_survives_witness :
  strategies.get "resilient"
    (snd (for_each three_registrations (fun r => addStrategy (fst r) (snd r))
                   initial_state))
  = strategies.get "resilient" initial_state.
Proof.
  apply (registered_strategy_survives "resilient" three_registrations initial_state).
  reflexivity.
Defined.

(** ** [_configure] *)

Lemma assign_assign_same (key : string) (v w : value) (o : obj) :
  assign key v (assign key w o) = assign key v o.
Proof.
  induction o as [|[k u] rest IH]; simpl.
  - now rewrite String.eqb_refl.
  - destruct (String.eqb k key) eqn:E; simpl; rewrite E; [reflexivity | now rewrite IH].
Qed.

Lemma lookup_max_maxRetry (v : value) (o : obj) :
  lookup "max" (assign "maxRetry" v o) = lookup "max" o.
Proof. apply lookup_assign_other. discriminate. Qed.

Ltac unfold_configure :=
  unfold _configure, write_retry_maxRetry, write_reAttempt_maxRetry, retry, group,
    the_retry, the_reAttempt, bind, get_state, update, throw, unmodelled, ret,
    options.parse.

(** The cases of a [_configure] that returned: which policy references are
    set, whether the group is, and the number under [reAttempt.max]. *)
Ltac configure_cases H r a gr rq da ao Enull Emax :=
  destruct r as [[|?ro]|], a as [[|ao]|]; simpl in H;
  (destruct gr; simpl in H;
   [destruct (is_nullish rq) eqn:Enull; [discriminate|]; simpl in H
   |..]);
  try (match type of H with
       | context [lookup "max" ?o] =>
           match o with da => idtac | ao => idtac end;
           destruct (lookup "max" o) as [[]|] eqn:Emax; try discriminate
       end);
  simpl in H; injection H as <-; simpl.

(** X8. Configuring a second time changes nothing: [maxRetry] is computed
    from [max] each time, not from the [maxRetry] of the run before, and a
    group once derived is kept; so the retry counts do not drift when a
    configuration is run again. *)
Theorem _configure_twice_is_once (st st1 : state) :
  _configure st = (Returns tt, st1) -> _configure st1 = (Returns tt, st1).
Proof.
  destruct st as [bl dr da reg r rq a gr n h].
  unfold_configure. simpl. intros H.
  configure_cases H r a gr rq da ao Enull Emax;
    rewrite ?lookup_max_maxRetry, ?Emax; simpl;
    rewrite ?Enull; simpl;
    try (destruct (property rq "url") eqn:Eurl); simpl;
    rewrite ?lookup_max_maxRetry, ?Emax; simpl;
    rewrite ?lookup_max_maxRetry, ?Emax, ?assign_assign_same; simpl;
    rewrite ?assign_assign_same; reflexivity.
Qed.

Lemma _configure_twice_is_once_witness :
  _configure (snd (_configure makeFailingRequest))
  = (Returns tt, snd (_configure makeFailingRequest)).
Proof.
  apply (_configure_twice_is_once makeFailingRequest). vm_compute. reflexivity.
Defined.

(** X9. [_configure] writes into the shared defaults: when the retry policy
    is the defaults object (set by [retry()] without options, or not set at
    all), [options.defaults.retry] itself gains [maxRetry]; a policy of its
    own leaves the defaults as they are.  The same holds for the re-attempt
    policy and [options.defaults.reAttempt]. *)
Theorem _configure_writes_into_shared_defaults (st st1 : state) :
  _configure st = (Returns tt, st1) ->
  defaults_retry st1
  = match o_retry st with
    | Some (Own _) => defaults_retry st
    | _ => assign "maxRetry" (property (VObj (defaults_retry st)) "max")
                  (defaults_retry st)
    end /\
  match o_reAttempt st with
  | Some TheDefaults =>
      exists q, property (VObj (defaults_reAttempt st)) "max" = VNum q /\
                defaults_reAttempt st1
                = assign "maxRetry" (VNum (q - 1)%Q) (defaults_reAttempt st)
  | _ => defaults_reAttempt st1 = defaults_reAttempt st
  end.
Proof.
  destruct st as [bl dr da reg r rq a gr n h].
  unfold_configure. simpl. intros H.
  configure_cases H r a gr rq da ao Enull Emax;
    rewrite ?Emax; (split; [reflexivity | eauto]).
Qed.

Lemma _configure_writes_into_shared_defaults_witness :
  defaults_retry (snd (_configure retry_only))
  = assign "maxRetry" (num 2) options.defaults.retry /\
  defaults_reAttempt (snd (_configure retry_only)) = options.defaults.reAttempt.
Proof.
  exact (_configure_writes_into_shared_defaults retry_only
           (snd (_configure retry_only)) eq_refl).
Defined.

(** X10. A group that [_configure] derived from the url of a request stays:
    when the request is then replaced and the configuration is configured
    again, the group is still the url of the first request, whatever the
    new request is. *)
Theorem derived_group_outlives_its_request (st : state) (u : string) :
  o_group st = VUndef ->
  is_nullish (o_request st) = false ->
  property (o_request st) "url" = VStr u ->
  reAttempt_typed st = true ->
  exists st1,
    _configure st = (Returns tt, st1) /\
    forall other, exists st2,
      (request other ;; _configure) st1 = (Returns tt, st2) /\
      o_request st2 = other /\
      o_group st2 = VStr u.
Proof.
  intros Hg Hnull Hurl Htyped.
  assert (Hres : resolved_group st = Some (VStr u)).
  { unfold resolved_group. now rewrite Hg, Hnull, Hurl. }
  destruct (_configure_spec st (VStr u) Hres Htyped)
    as (st1 & Hrun & _ & _ & _ & _ & _ & Hgr & _ & Hre).
  exists st1. split; [exact Hrun|]. intros other.
  assert (Hres2 : resolved_group (set_o_request other st1) = Some (VStr u)).
  { unfold resolved_group. simpl. now rewrite Hgr. }
  assert (Htyped2 : reAttempt_typed (set_o_request other st1) = true).
  { unfold reAttempt_typed.
    change (the_reAttempt (set_o_request other st1)) with (the_reAttempt st1).
    destruct (the_reAttempt st) as [o|].
    - destruct Hre as (_ & q & Hq & ->).
      rewrite property_assign_other by discriminate. now rewrite Hq.
    - unfold the_reAttempt. now rewrite Hre. }
  destruct (_configure_spec _ (VStr u) Hres2 Htyped2)
    as (st2 & Hrun2 & _ & _ & _ & _ & Hrq2 & Hgr2 & _).
  exists st2. unfold bind, request, update. now rewrite Hrun2.
Qed.

Lemma derived_group_outlives_its_request_witness :
  exists st1,
    _configure retry_only = (Returns tt, st1) /\
    forall other, exists st2,
      (request other ;; _configure) st1 = (Returns tt, st2) /\
      o_request st2 = other /\
      o_group st2 = VStr "http://localhost:8080/bad-url".
Proof.
  apply (derived_group_outlives_its_request retry_only
           "http://localhost:8080/bad-url"); reflexivity.
Defined.

(** X15. A request without [url], on a configuration without group, is
    grouped under [undefined], and the group is derived anew at every run:
    while [undefined] is in the registry such a run is rejected as blocked
    without a request being made. *)
Theorem run_without_url_shares_the_undefined_group
    (axios : value -> nat -> promise) (st : state) :
  o_group st = VUndef ->
  is_nullish (o_request st) = false ->
  property (o_request st) "url" = VUndef ->
  reAttempt_typed st = true ->
  blockedGroups.contains VUndef st = true ->
  exists st',
    run axios st = (Returns (Rejected blocked_message), st') /\
    o_group st' = VUndef /\
    issued st' = issued st /\
    history st' = history st.
Proof.
  intros Hg Hnull Hurl Htyped Hblocked.
  assert (Hres : resolved_group st = Some VUndef).
  { unfold resolved_group. now rewrite Hg, Hnull, Hurl. }
  destruct (_configure_spec st VUndef Hres Htyped)
    as (st1 & Hrun & Hb & Hi & Hh & _ & _ & Hgr & _).
  exists st1. repeat split; auto.
  unfold run, bind. rewrite Hrun. unfold get_state.
  rewrite Hgr, contains_existsb, Hb, <- contains_existsb, Hblocked. reflexivity.
Qed.

Lemma run_without_url_shares_the_undefined_group_witness :
  exists st',
    run (network_back_after 0) urlless_while_blocked
    = (Returns (Rejected blocked_message), st') /\
    o_group st' = VUndef /\
    issued st' = 0 /\
    history st' = [].
Proof.
  apply (run_without_url_shares_the_undefined_group (network_back_after 0)
           urlless_while_blocked); reflexivity.
Defined.

(** ** What [run] never does *)

Section Frame.

(** A component of the state that no write of [run] touches. *)
Variable X : Type.
Variable part : state -> X.
Hypothesis part_blocked : forall l st, part (set_blocked l st) = part st.
Hypothesis part_defaults_retry : forall o st, part (set_defaults_retry o st) = part st.
Hypothesis part_defaults_reAttempt :
  forall o st, part (set_defaults_reAttempt o st) = part st.
Hypothesis part_o_retry : forall r st, part (set_o_retry r st) = part st.
Hypothesis part_o_reAttempt : forall r st, part (set_o_reAttempt r st) = part st.
Hypothesis part_o_group : forall v st, part (set_o_group v st) = part st.
Hypothesis part_log : forall e st, part (log e st) = part st.
Hypothesis part_count : forall st, part (count_request st) = part st.

Lemma keeps_ret {A : Type} (a : A) : keeps part (ret a).
Proof. intros st. reflexivity. Qed.

Lemma keeps_throw {A : Type} (e : string) : keeps part (@throw A e).
Proof. intros st. reflexivity. Qed.

Lemma keeps_unmodelled {A : Type} : keeps part (@unmodelled A).
Proof. intros st. reflexivity. Qed.

Lemma keeps_get_state : keeps part get_state.
Proof. intros st. reflexivity. Qed.

Lemma keeps_update (f : state -> state) :
  (forall st, part (f st) = part st) -> keeps part (update f).
Proof. intros H st. apply H. Qed.

Lemma keeps_bind {A B : Type} (m : M A) (f : A -> M B) :
  keeps part m -> (forall a, keeps part (f a)) -> keeps part (bind m f).
Proof.
  intros Hm Hf st. unfold bind. specialize (Hm st).
  destruct (m st) as [[a| |] st1]; simpl in *; auto.
  now rewrite Hf.
Qed.

Lemma keeps_for_each {A : Type} (l : list A) (f : A -> M unit) :
  (forall a, keeps part (f a)) -> keeps part (for_each l f).
Proof.
  intros Hf. induction l as [|a rest IH]; simpl.
  - apply keeps_ret.
  - apply keeps_bind; auto.
Qed.

Lemma keeps_Qretry_from (action : M promise) (n : nat) :
  keeps part action -> keeps part (Qretry_from action n).
Proof.
  intros Ha. induction n as [|n IH]; simpl.
  - apply keeps_bind; [assumption|]. intros []; apply keeps_ret.
  - apply keeps_bind; [assumption|]. intros []; [apply keeps_ret | assumption].
Qed.

Lemma keeps_Qretry (action : M promise) (options : option obj) :
  keeps part action -> keeps part (Qretry action options).
Proof.
  intros Ha. unfold Qretry. destruct options as [o|]; [|apply keeps_unmodelled].
  destruct (integer_of (property (VObj o) "maxRetry"));
    [now apply keeps_Qretry_from | apply keeps_unmodelled].
Qed.

Lemma keeps_add (x : value) : forall st, part (blockedGroups.add x st) = part st.
Proof.
  intros st. unfold blockedGroups.add.
  destruct (negb (blockedGroups.contains x st)); auto.
Qed.

Lemma keeps_remove (x : value) : forall st, part (blockedGroups.remove x st) = part st.
Proof.
  intros st. unfold blockedGroups.remove.
  destruct (blockedGroups.indexOf (blocked st) x >? -1)%Z; auto.
Qed.

Variable axios : value -> nat -> promise.

Lemma keeps_axios_call (t : tier) (config : value) : keeps part (axios_call axios t config).
Proof. intros st. unfold axios_call. simpl. now rewrite part_count, part_log. Qed.

Lemma keeps_send (t : tier) : keeps part (send axios t).
Proof.
  apply keeps_bind; [apply keeps_get_state|]. intros st. apply keeps_axios_call.
Qed.

Lemma keeps_configure : keeps part _configure.
Proof.
  unfold _configure, write_retry_maxRetry, write_reAttempt_maxRetry, retry, group.
  repeat (apply keeps_bind; [|intros ?]);
    repeat match goal with
           | |- keeps part get_state => apply keeps_get_state
           | |- keeps part (ret _) => apply keeps_ret
           | |- keeps part (throw _) => apply keeps_throw
           | |- keeps part unmodelled => apply keeps_unmodelled
           | |- keeps part (update _) => apply keeps_update; intros; auto
           | |- keeps part (bind _ _) => apply keeps_bind; [|intros ?]
           | |- keeps part (match ?x with _ => _ end) => destruct x
           | |- keeps part (if ?x then _ else _) => destruct x
           end.
Qed.

Lemma keeps_doReAttempt : keeps part (_doReAttempt axios).
Proof.
  unfold _doReAttempt.
  apply keeps_bind; [apply keeps_get_state|]. intros st.
  apply keeps_bind; [apply keeps_Qretry, (keeps_send Tier2)|]. intros [res|err];
    repeat (apply keeps_bind; [|intros ?]);
    try apply keeps_get_state; try apply keeps_ret;
    apply keeps_update; intros; auto using keeps_remove.
Qed.

Lemma keeps_doRetry : keeps part (_doRetry axios).
Proof.
  unfold _doRetry.
  apply keeps_bind; [apply keeps_get_state|]. intros st.
  apply keeps_bind; [apply keeps_Qretry, (keeps_send Tier1)|].
  intros [res|err]; [apply keeps_ret|].
  apply keeps_bind; [apply keeps_update; intros; auto|]. intros _.
  apply keeps_bind; [apply keeps_get_state|]. intros st'.
  destruct (o_reAttempt st'); [|apply keeps_ret].
  apply keeps_bind; [apply keeps_update; intros; auto|]. intros _.
  apply keeps_bind; [apply keeps_update; intros; auto using keeps_add|]. intros _.
  apply keeps_doReAttempt.
Qed.

Lemma keeps_run : keeps part (run axios).
Proof.
  unfold run.
  apply keeps_bind; [apply keeps_configure|]. intros _.
  apply keeps_bind; [apply keeps_get_state|]. intros st.
  destruct (blockedGroups.contains (o_group st) st);
    [apply keeps_ret | apply keeps_doRetry].
Qed.

(** With the request among the parts kept, [runStrategy] keeps part them too. *)
Hypothesis part_o_request : forall v st, part (set_o_request v st) = part st.

Lemma keeps_runStrategy (name : string) : keeps part (runStrategy axios name).
Proof.
  unfold runStrategy.
  apply keeps_bind; [apply keeps_get_state|]. intros st.
  destruct (negb (truthy (strategies.get name st))).
  - apply keeps_bind; [apply keeps_update; intros; auto | intros; apply keeps_ret].
  - apply keeps_bind.
    + apply keeps_for_each. intros key. unfold _strategyHelper.
      destruct (truthy _); [|apply keeps_ret].
      repeat match goal with
             | |- keeps part (if ?x then _ else _) => destruct x
             end;
        try apply keeps_unmodelled;
        unfold retry, request, reAttempt, group; apply keeps_update; intros; auto.
    + intros _. apply keeps_bind; [apply keeps_run | intros; apply keeps_ret].
Qed.

End Frame.

(** X14. However it ends, [run] changes neither the registry of strategies
    nor the request of the configuration.  [runStrategy] with a bundle whose
    keys with a truthy value name setters does not change the registry of
    strategies either: the policies of the bundle are copied into the
    configuration, so that the [maxRetry] written by [_configure] never
    reaches the registered bundle. *)
Theorem run_keeps_strategies_and_request
    (axios : value -> nat -> promise) (name : string) (st : state) :
  registered (snd (run axios st)) = registered st /\
  o_request (snd (run axios st)) = o_request st /\
  (setters_only (strategies.get name st) = true ->
   registered (snd (runStrategy axios name st)) = registered st).
Proof.
  split; [|split].
  - apply (keeps_run (list (string * value)) registered); reflexivity.
  - apply (keeps_run value o_request); reflexivity.
  - intros _. apply (keeps_runStrategy (list (string * value)) registered); reflexivity.
Qed.

Lemma run_keeps_strategies_and_request_witness :
  setters_only (strategies.get "resilient" makeFailingRequest) = true /\
  registered (snd (runStrategy network_down "resilient" makeFailingRequest))
  = registered makeFailingRequest.
Proof.
  split; [reflexivity|].
  exact (proj2 (proj2 (run_keeps_strategies_and_request network_down "resilient"
                         makeFailingRequest)) eq_refl).
Defined.

(** ** [run] against any client *)

(** Among the answers [f 0 .. f n] either all are failures or there is a
    first success. *)
Lemma first_success (f : nat -> promise) (n : nat) :
  (forall i, i <= n -> is_rejected (f i) = true) \/
  (exists j res, j <= n /\
                 (forall i, i < j -> is_rejected (f i) = true) /\
                 f j = Resolved res).
Proof.
  induction n as [|n IH].
  - destruct (f 0) as [res|err] eqn:E.
    + right. exists 0, res. repeat split; auto. intros i Hi. lia.
    + left. intros i Hi. replace i with 0 by lia. now rewrite E.
  - destruct IH as [Hall|(j & res & Hj & Hbefore & Hok)].
    + destruct (f (S n)) as [res|err] eqn:E.
      * right. exists (S n), res. repeat split; auto.
        intros i Hi. apply Hall. lia.
      * left. intros i Hi. destruct (Nat.eq_dec i (S n)) as [->|Hne].
        -- now rewrite E.
        -- apply Hall. lia.
    + right. exists j, res. repeat split; auto.
Qed.

Section AnyClient.

Variable axios : value -> nat -> promise.

Lemma run_retry_succeeds (st : state) (g : string) (m j : nat) (res : value) :
  resolved_group st = Some (VStr g) ->
  reAttempt_typed st = true ->
  blockedGroups.contains (VStr g) st = false ->
  integer_of (property (VObj (resolved_retry st)) "max") = Some (Z.of_nat m) ->
  j <= m ->
  (forall i, i < j -> is_rejected (axios (o_request st) (issued st + i)) = true) ->
  axios (o_request st) (issued st + j) = Resolved res ->
  exists st',
    run axios st = (Returns (Resolved res), st') /\
    issued st' = issued st + S j /\
    blocked st' = blocked st.
Proof.
  intros Hg Ha Hfree Hmax Hj Hfail Hok.
  destruct (run_unblocked axios st g Hg Ha Hfree)
    as (st1 & Hrun & Hb & Hi & Hh & Hr & Hgr & Hretry & _).
  exists (sent Tier1 (S j) st1).
  assert (Hn : integer_of
                 (property (VObj (assign "maxRetry"
                    (property (VObj (resolved_retry st)) "max") (resolved_retry st)))
                    "maxRetry") = Some (Z.of_nat m))
    by now rewrite property_assign_same.
  rewrite Hrun.
  rewrite (_doRetry_success axios st1 _ _ j res Hretry Hn).
  - unfold sent; simpl. rewrite Hb, Hi. repeat split; auto.
  - rewrite Nat2Z.id. lia.
  - intros i Hlt. rewrite Hr, Hi. now apply Hfail.
  - now rewrite Hr, Hi.
Qed.

Lemma run_retries_exhausted (st : state) (g : string) (m : nat) :
  resolved_group st = Some (VStr g) ->
  blockedGroups.contains (VStr g) st = false ->
  o_reAttempt st = None ->
  integer_of (property (VObj (resolved_retry st)) "max") = Some (Z.of_nat m) ->
  (forall i, i <= m -> is_rejected (axios (o_request st) (issued st + i)) = true) ->
  exists reason st',
    run axios st = (Returns (Rejected reason), st') /\
    issued st' = issued st + S m /\
    blocked st' = blocked st.
Proof.
  intros Hg Hfree Hnone Hmax Hfail.
  assert (Htyped : reAttempt_typed st = true)
    by (unfold reAttempt_typed, the_reAttempt; now rewrite Hnone).
  destruct (run_unblocked axios st g Hg Htyped Hfree)
    as (st1 & Hrun & Hb & Hi & Hh & Hr & Hgr & Hretry & Hre).
  unfold the_reAttempt in Hre. rewrite Hnone in Hre. simpl in Hre.
  assert (Hn : integer_of
                 (property (VObj (assign "maxRetry"
                    (property (VObj (resolved_retry st)) "max") (resolved_retry st)))
                    "maxRetry") = Some (Z.of_nat m))
    by now rewrite property_assign_same.
  assert (Hfail1 : forall i, i <= Z.to_nat (Z.of_nat m) ->
            is_rejected (axios (o_request st1) (issued st1 + i)) = true).
  { intros i Hle. rewrite Hr, Hi. apply Hfail. now rewrite Nat2Z.id in Hle. }
  rewrite Hrun, (_doRetry_exhausted axios st1 _ _ Hretry Hn Hfail1 Hre).
  rewrite Nat2Z.id. do 2 eexists. split; [reflexivity|].
  unfold sent; simpl. now rewrite Hb, Hi.
Qed.

End AnyClient.

Lemma run_outcome
    (axios : value -> nat -> promise) (st : state) (g : string) (m k : nat) :
  resolved_group st = Some (VStr g) ->
  blockedGroups.contains (VStr g) st = false ->
  integer_of (property (VObj (resolved_retry st)) "max") = Some (Z.of_nat m) ->
  reAttempt_allows st k ->
  exists c p st',
    run axios st = (Returns p, st') /\
    1 <= c <= S m + k /\
    issued st' = issued st + c /\
    (forall i, i < c - 1 ->
       is_rejected (axios (o_request st) (issued st + i)) = true) /\
    match axios (o_request st) (issued st + (c - 1)) with
    | Resolved res => p = Resolved res
    | Rejected _ => c = S m + k /\ is_rejected p = true
    end /\
    blocked st' = blocked st.
Proof.
  intros Hg Hfree Hmax Hallows.
  assert (Htyped : reAttempt_typed st = true).
  { unfold reAttempt_typed. destruct Hallows as [[Hnone _]|(a & Ha & Hk & _)].
    - unfold the_reAttempt. now rewrite Hnone.
    - rewrite Ha. destruct (integer_of_is_number _ _ Hk) as [q ->]. reflexivity. }
  destruct (first_success (fun i => axios (o_request st) (issued st + i)) m)
    as [Hfail1|(j & res & Hj & Hbefore & Hok)].
  - destruct Hallows as [[Hnone ->]|(a & Ha & Hk & Hk1)].
    + destruct (run_retries_exhausted axios st g m Hg Hfree Hnone Hmax Hfail1)
        as (reason & st' & Hrun & Hi & Hb).
      exists (S m), (Rejected reason), st'.
      split; [exact Hrun|]. split; [lia|]. split; [exact Hi|]. split.
      * intros i Hlt. apply Hfail1. lia.
      * split; [|exact Hb].
        replace (S m - 1) with m by lia.
        pose proof (Hfail1 m (Nat.le_refl m)) as Hlast.
        destruct (axios (o_request st) (issued st + m)); [discriminate|].
        split; [lia | reflexivity].
    + destruct (first_success
                  (fun i => axios (o_request st) (issued st + S m + i)) (k - 1))
        as [Hfail2|(j & res & Hj & Hbefore & Hok)].
      * assert (Hfail2' : forall i, i < k ->
                  is_rejected (axios (o_request st) (issued st + S m + i)) = true)
          by (intros i Hlt; apply Hfail2; lia).
        destruct (run_reAttempts_exhausted axios st g m k a
                    Hg Hfree Hmax Ha Hk Hk1 Hfail1 Hfail2')
          as (st' & Hrun & Hi & _ & Hb).
        eexists (S m + k), _, st'.
        split; [exact Hrun|]. split; [lia|]. split; [lia|]. split.
        -- intros i Hlt. destruct (Nat.le_gt_cases i m) as [Hle|Hgt].
           ++ now apply Hfail1.
           ++ replace (issued st + i) with (issued st + S m + (i - S m)) by lia.
              apply Hfail2'. lia.
        -- split; [|exact Hb].
           replace (issued st + (S m + k - 1)) with (issued st + S m + (k - 1)) by lia.
           pose proof (Hfail2 (k - 1) (Nat.le_refl _)) as Hlast.
           destruct (axios (o_request st) (issued st + S m + (k - 1)));
             [discriminate|].
           split; reflexivity.
      * assert (Hjk : j < k) by lia.
        destruct (run_reAttempt_succeeds axios st g m k j a res
                    Hg Hfree Hmax Ha Hk Hjk Hfail1 Hbefore Hok)
          as (st' & Hrun & Hi & _ & Hb).
        exists (S m + S j), (Resolved res), st'.
        split; [exact Hrun|]. split; [lia|]. split; [lia|]. split.
        -- intros i Hlt. destruct (Nat.le_gt_cases i m) as [Hle|Hgt].
           ++ now apply Hfail1.
           ++ replace (issued st + i) with (issued st + S m + (i - S m)) by lia.
              apply Hbefore. lia.
        -- split; [|exact Hb].
           replace (issued st + (S m + S j - 1)) with (issued st + S m + j) by lia.
           now rewrite Hok.
  - destruct (run_retry_succeeds axios st g m j res
                Hg Htyped Hfree Hmax Hj Hbefore Hok)
      as (st' & Hrun & Hi & Hb).
    exists (S j), (Resolved res), st'.
    split; [exact Hrun|]. split; [lia|]. split; [exact Hi|]. split.
    + intros i Hlt. apply Hbefore. lia.
    + split; [|exact Hb].
      replace (S j - 1) with j by lia. now rewrite Hok.
Qed.

(** X11. Whatever the client answers, a [run] on a group that is not
    blocked settles: it sends requests one after the other until one
    succeeds, at most [retry.max + 1] in the retry phase and [reAttempt.max]
    more in the re-attempt phase.  It resolves with the first success, it
    rejects only when all [retry.max + 1 + reAttempt.max] requests failed,
    and in both cases the registry is at the end what it was at the
    start. *)
Theorem run_stops_at_the_first_success
    (axios : value -> nat -> promise) (st : state) (g : string) (m k : nat) :
  resolved_group st = Some (VStr g) ->
  blockedGroups.contains (VStr g) st = false ->
  integer_of (property (VObj (resolved_retry st)) "max") = Some (Z.of_nat m) ->
  reAttempt_allows st k ->
  exists c p st',
    run axios st = (Returns p, st') /\
    1 <= c <= S m + k /\
    issued st' = issued st + c /\
    (forall i, i < c - 1 ->
       is_rejected (axios (o_request st) (issued st + i)) = true) /\
    match axios (o_request st) (issued st + (c - 1)) with
    | Resolved res => p = Resolved res
    | Rejected _ => c = S m + k /\ is_rejected p = true
    end /\
    blocked st' = blocked st.
Proof.
  intros Hg Hfree Hmax Hallows.
  destruct (run_outcome axios st g m k Hg Hfree Hmax Hallows)
    as (c & p & st' & Hrun & Hc & Hi & Hbefore & Hlast & Hb).
  exists c, p, st'. repeat split; try assumption; lia.
Qed.

Lemma run_stops_at_the_first_success_witness :
  exists c p st',
    run (network_back_after 4) makeFailingRequest = (Returns p, st') /\
    1 <= c <= 3 + 3 /\
    issued st' = 0 + c /\
    (forall i, i < c - 1 ->
       is_rejected (network_back_after 4 badRequestConfig (0 + i)) = true) /\
    match network_back_after 4 badRequestConfig (0 + (c - 1)) with
    | Resolved res => p = Resolved res
    | Rejected _ => c = 3 + 3 /\ is_rejected p = true
    end /\
    blocked st' = [].
Proof.
  refine (run_stops_at_the_first_success (network_back_after 4) makeFailingRequest
            "http://localhost:8080/bad-url" 2 3 eq_refl eq_refl eq_refl _).
  right. exists options.defaults.reAttempt.
  split; [reflexivity|]. split; [reflexivity | lia].
Defined.


(** ** When [run] throws *)

Lemma _configure_without_group (st : state) :
  fst (_configure st)
  = match resolved_group st with
    | None => Throws "TypeError"
    | Some _ => fst (_configure st)
    end.
Proof.
  destruct st as [bl dr da reg r rq a gr n h].
  unfold resolved_group. unfold_configure. simpl.
  destruct r as [[|ro]|], a as [[|ao]|], gr; simpl; try destruct rq; simpl;
    repeat match goal with
           | |- context [match lookup "max" ?o with _ => _ end] =>
               destruct (lookup "max" o) as [[]|]; simpl
           end;
    reflexivity.
Qed.

(** X12. When no group is set and the request is [undefined] or [null],
    [run] throws a TypeError before any promise exists, and nothing has
    been sent, published or blocked.  With a group set, or with any other
    request, and a number for [max] in the re-attempt policy when there is
    one, the configuration step of [run] completes with the group settled.
    And with a string for group, a natural number for [max] in the retry
    policy, and no re-attempt policy or one whose [max] is a natural number
    from 1 on, [run] returns a promise, whatever the client answers. *)
Theorem run_throws_without_group_and_request
    (axios : value -> nat -> promise) (st : state) :
  (resolved_group st = None ->
   fst (run axios st) = Throws "TypeError" /\
   issued (snd (run axios st)) = issued st /\
   history (snd (run axios st)) = history st /\
   blocked (snd (run axios st)) = blocked st)
  /\
  (forall g, resolved_group st = Some g ->
             reAttempt_typed st = true ->
             exists st1, _configure st = (Returns tt, st1) /\ o_group st1 = g)
  /\
  (forall g m k,
     resolved_group st = Some (VStr g) ->
     integer_of (property (VObj (resolved_retry st)) "max") = Some (Z.of_nat m) ->
     reAttempt_allows st k ->
     exists p st', run axios st = (Returns p, st')).
Proof.
  split; [|split].
  - intros Hnone. pose proof (_configure_without_group st) as Hfst.
    rewrite Hnone in Hfst.
    assert (Hrun : run axios st = (Throws "TypeError", snd (_configure st))).
    { unfold run, bind. destruct (_configure st) as [c st1]. simpl in Hfst.
      now subst c. }
    rewrite Hrun. simpl. repeat split.
    + apply (keeps_configure nat issued); reflexivity.
    + apply (keeps_configure _ history); reflexivity.
    + apply (keeps_configure _ blocked); reflexivity.
  - intros g Hg Htyped.
    destruct (_configure_spec st g Hg Htyped) as (st1 & Hrun & _ & _ & _ & _ & _ & Hgr & _).
    exists st1. split; assumption.
  - intros g m k Hg Hmax Hallows.
    destruct (blockedGroups.contains (VStr g) st) eqn:Hblocked.
    + assert (Htyped : reAttempt_typed st = true).
      { unfold reAttempt_typed. destruct Hallows as [[Hnone _]|(a & Ha & Hk & _)].
        - unfold the_reAttempt. now rewrite Hnone.
        - rewrite Ha. destruct (integer_of_is_number _ _ Hk) as [q ->]. reflexivity. }
      destruct (_configure_spec st (VStr g) Hg Htyped)
        as (st1 & Hrun & Hb & _ & _ & _ & _ & Hgr & _).
      exists (Rejected blocked_message), st1.
      unfold run, bind. rewrite Hrun. unfold get_state.
      rewrite Hgr, contains_existsb, Hb, <- contains_existsb, Hblocked. reflexivity.
    + destruct (run_outcome axios st g m k Hg Hblocked Hmax Hallows)
        as (c & p & st' & Hrun & _).
      exists p, st'. exact Hrun.
Qed.

Lemma run_throws_without_group_and_request_witness :
  (fst (run network_down (configured_by (request VNull))) = Throws "TypeError" /\
   issued (snd (run network_down (configured_by (request VNull)))) = 0 /\
   history (snd (run network_down (configured_by (request VNull)))) = [] /\
   blocked (snd (run network_down (configured_by (request VNull)))) = [])
  /\
  (exists st1, _configure retry_only = (Returns tt, st1) /\
               o_group st1 = VStr "http://localhost:8080/bad-url")
  /\
  (exists p st', run network_down retry_only = (Returns p, st')).
Proof.
  split; [|split].
  - exact (proj1 (run_throws_without_group_and_request network_down
                    (configured_by (request VNull))) eq_refl).
  - exact (proj1 (proj2 (run_throws_without_group_and_request network_down
                           retry_only))
             (VStr "http://localhost:8080/bad-url") eq_refl eq_refl).
  - refine (proj2 (proj2 (run_throws_without_group_and_request network_down
                            retry_only))
              "http://localhost:8080/bad-url" 2 0 eq_refl eq_refl _).
    left. split; reflexivity.
Defined.


(** ** Running again *)

Lemma the_retry_resolved (st : state) (o : obj) :
  the_retry st = Some o -> resolved_retry st = o.
Proof.
  unfold the_retry, resolved_retry. destruct (o_retry st); simpl; congruence.
Qed.

(** X17. A [run] leaves the configuration ready for the next one: the
    group, the number of retries and the number of re-attempts are what
    they were, and the group is not blocked.  So every later [run] of the
    same configuration is again bounded and again leaves the registry as it
    found it. *)
Theorem run_leaves_the_configuration_ready
    (axios : value -> nat -> promise) (st : state) (g : string) (m k : nat) :
  resolved_group st = Some (VStr g) ->
  blockedGroups.contains (VStr g) st = false ->
  integer_of (property (VObj (resolved_retry st)) "max") = Some (Z.of_nat m) ->
  reAttempt_allows st k ->
  resolved_group (snd (run axios st)) = Some (VStr g) /\
  blockedGroups.contains (VStr g) (snd (run axios st)) = false /\
  integer_of (property (VObj (resolved_retry (snd (run axios st)))) "max")
  = Some (Z.of_nat m) /\
  reAttempt_allows (snd (run axios st)) k.
Proof.
  intros Hg Hfree Hmax Hallows.
  assert (Htyped : reAttempt_typed st = true).
  { unfold reAttempt_typed. destruct Hallows as [[Hnone _]|(a & Ha & Hk & _)].
    - unfold the_reAttempt. now rewrite Hnone.
    - rewrite Ha. destruct (integer_of_is_number _ _ Hk) as [q ->]. reflexivity. }
  destruct (run_outcome axios st g m k Hg Hfree Hmax Hallows)
    as (c & p & st' & Hout & _ & _ & _ & _ & Hb').
  destruct (run_unblocked axios st g Hg Htyped Hfree)
    as (st1 & Hrun & _ & _ & _ & _ & Hgr & Hretry & Hre).
  assert (Hgroup : o_group (snd (run axios st)) = VStr g).
  { rewrite Hrun, <- Hgr. apply (keeps_doRetry _ o_group); reflexivity. }
  assert (Hthe : the_retry (snd (run axios st)) = the_retry st1).
  { rewrite Hrun. apply (keeps_doRetry _ the_retry); reflexivity. }
  assert (Hore : o_reAttempt (snd (run axios st)) = o_reAttempt st1).
  { rewrite Hrun. apply (keeps_doRetry _ o_reAttempt); reflexivity. }
  assert (Hthere : the_reAttempt (snd (run axios st)) = the_reAttempt st1).
  { rewrite Hrun. apply (keeps_doRetry _ the_reAttempt); reflexivity. }
  split; [|split; [|split]].
  - unfold resolved_group. now rewrite Hgroup.
  - rewrite Hout. simpl. rewrite contains_existsb in *. now rewrite Hb'.
  - rewrite Hretry in Hthe. rewrite (the_retry_resolved _ _ Hthe).
    now rewrite property_assign_other by discriminate.
  - destruct Hallows as [[Hnone ->]|(a & Ha & Hk & Hk1)].
    + left. split; [|reflexivity]. rewrite Hore.
      unfold the_reAttempt in Hre. rewrite Hnone in Hre. exact Hre.
    + right. rewrite Ha in Hre. destruct Hre as (_ & q & Hq & Hre).
      exists (assign "maxRetry" (VNum (q - 1)%Q) a).
      split; [now rewrite Hthere|]. split; [|exact Hk1].
      now rewrite property_assign_other by discriminate.
Qed.

Lemma run_leaves_the_configuration_ready_witness :
  resolved_group (snd (run network_down makeFailingRequest))
  = Some (VStr "http://localhost:8080/bad-url") /\
  blockedGroups.contains (VStr "http://localhost:8080/bad-url")
    (snd (run network_down makeFailingRequest)) = false /\
  integer_of (property (VObj (resolved_retry (snd (run network_down makeFailingRequest))))
                       "max") = Some (Z.of_nat 2) /\
  reAttempt_allows (snd (run network_down makeFailingRequest)) 3.
Proof.
  refine (run_leaves_the_configuration_ready network_down makeFailingRequest
            "http://localhost:8080/bad-url" 2 3 eq_refl eq_refl eq_refl _).
  right. exists options.defaults.reAttempt.
  split; [reflexivity|]. split; [reflexivity | lia].
Defined.

(** ** Strategies by name *)

Lemma bind_addStrategy {B : Type} (name : string) (bundle : value) (k : M B)
    (st : state) :
  (addStrategy name bundle ;; k) st = k (snd (strategies.add name bundle st)).
Proof. reflexivity. Qed.

(** X16. [addStrategy] followed by [runStrategy] under the same name: when
    [strategies.get] found nothing truthy under the name, the run applies
    the bundle just registered; when it found something truthy, a bundle
    registered before or what [Object.prototype] provides under that name,
    the registration is ignored without notice and the run applies what was
    found. *)
Theorem runStrategy_after_addStrategy
    (axios : value -> nat -> promise) (name : string) (bundle : value) (st : state) :
  (truthy (strategies.get name st) = false ->
   truthy bundle = true ->
   (addStrategy name bundle ;; runStrategy axios name) st
   = (addStrategy name bundle ;;
      apply_bundle bundle ;; p <- run axios ;; ret (inr p)) st)
  /\
  (truthy (strategies.get name st) = true ->
   (addStrategy name bundle ;; runStrategy axios name) st
   = (apply_bundle (strategies.get name st) ;; p <- run axios ;; ret (inr p)) st).
Proof.
  split.
  - intros Hfree Hbundle. rewrite !bind_addStrategy.
    unfold strategies.add. rewrite Hfree. cbn [snd].
    unfold runStrategy, bind at 1, get_state at 1.
    rewrite get_after_assign_same.
    replace (if is_undefined bundle then VBool false else bundle) with bundle
      by (now destruct bundle).
    rewrite Hbundle. reflexivity.
  - intros Htaken. rewrite bind_addStrategy.
    unfold strategies.add. rewrite Htaken. cbn [snd].
    unfold runStrategy, bind at 1, get_state at 1.
    rewrite Htaken. reflexivity.
Qed.

Lemma runStrategy_after_addStrategy_witness :
  (addStrategy "custom" quiet ;; runStrategy network_down "custom")
    (configured_by (request badRequestConfig))
  = (addStrategy "custom" quiet ;;
     apply_bundle quiet ;; p <- run network_down ;; ret (inr p))
      (configured_by (request badRequestConfig))
  /\
  (addStrategy "resilient" quiet ;; runStrategy network_down "resilient")
    (configured_by (request badRequestConfig))
  = (apply_bundle (strategies.get "resilient" initial_state) ;;
     p <- run network_down ;; ret (inr p))
      (configured_by (request badRequestConfig)).
Proof.
  split.
  - exact (proj1 (runStrategy_after_addStrategy network_down "custom" quiet
                    (configured_by (request badRequestConfig))) eq_refl eq_refl).
  - exact (proj2 (runStrategy_after_addStrategy network_down "resilient" quiet
                    (configured_by (request badRequestConfig))) eq_refl).
Defined.


(** ** What is published *)

Section Invariant.

(** A property of the state that no write of [run] breaks. *)
Variable P : state -> Prop.
Hypothesis P_blocked : forall l st, P st -> P (set_blocked l st).
Hypothesis P_defaults_retry : forall o st, P st -> P (set_defaults_retry o st).
Hypothesis P_defaults_reAttempt : forall o st, P st -> P (set_defaults_reAttempt o st).
Hypothesis P_o_retry : forall r st, P st -> P (set_o_retry r st).
Hypothesis P_o_request : forall v st, P st -> P (set_o_request v st).
Hypothesis P_o_reAttempt : forall r st, P st -> P (set_o_reAttempt r st).
Hypothesis P_o_group : forall v st, P st -> P (set_o_group v st).
Hypothesis P_count : forall st, P st -> P (count_request st).
Hypothesis P_log : forall e st, publishable e = true -> P st -> P (log e st).

Lemma maintains_ret {A : Type} (a : A) : maintains P (ret a).
Proof. intros st H. exact H. Qed.

Lemma maintains_throw {A : Type} (e : string) : maintains P (@throw A e).
Proof. intros st H. exact H. Qed.

Lemma maintains_unmodelled {A : Type} : maintains P (@unmodelled A).
Proof. intros st H. exact H. Qed.

Lemma maintains_get_state : maintains P get_state.
Proof. intros st H. exact H. Qed.

Lemma maintains_update (f : state -> state) :
  (forall st, P st -> P (f st)) -> maintains P (update f).
Proof. intros Hf st H. now apply Hf. Qed.

Lemma maintains_bind {A B : Type} (m : M A) (f : A -> M B) :
  maintains P m -> (forall a, maintains P (f a)) -> maintains P (bind m f).
Proof.
  intros Hm Hf st H. unfold bind. specialize (Hm st H).
  destruct (m st) as [[a| |] st1]; simpl in *; auto.
  now apply Hf.
Qed.

Lemma maintains_for_each {A : Type} (l : list A) (f : A -> M unit) :
  (forall a, maintains P (f a)) -> maintains P (for_each l f).
Proof.
  intros Hf. induction l as [|a rest IH]; simpl.
  - apply maintains_ret.
  - apply maintains_bind; auto.
Qed.

Lemma maintains_Qretry_from (action : M promise) (n : nat) :
  maintains P action -> maintains P (Qretry_from action n).
Proof.
  intros Ha. induction n as [|n IH]; simpl.
  - apply maintains_bind; [assumption|]. intros []; apply maintains_ret.
  - apply maintains_bind; [assumption|].
    intros []; [apply maintains_ret | assumption].
Qed.

Lemma maintains_Qretry (action : M promise) (options : option obj) :
  maintains P action -> maintains P (Qretry action options).
Proof.
  intros Ha. unfold Qretry. destruct options as [o|]; [|apply maintains_unmodelled].
  destruct (integer_of (property (VObj o) "maxRetry"));
    [now apply maintains_Qretry_from | apply maintains_unmodelled].
Qed.

Lemma maintains_add (x : value) : forall st, P st -> P (blockedGroups.add x st).
Proof.
  intros st H. unfold blockedGroups.add.
  destruct (negb (blockedGroups.contains x st)); auto.
Qed.

Lemma maintains_remove (x : value) : forall st, P st -> P (blockedGroups.remove x st).
Proof.
  intros st H. unfold blockedGroups.remove.
  destruct (blockedGroups.indexOf (blocked st) x >? -1)%Z; auto.
Qed.

Variable axios : value -> nat -> promise.

Lemma maintains_send (t : tier) : maintains P (send axios t).
Proof.
  intros st H. unfold send, bind, get_state, axios_call. simpl.
  apply P_count, P_log; [reflexivity | exact H].
Qed.

Lemma maintains_configure : maintains P _configure.
Proof.
  unfold _configure, write_retry_maxRetry, write_reAttempt_maxRetry, retry, group.
  repeat (apply maintains_bind; [|intros ?]);
    repeat match goal with
           | |- maintains _ get_state => apply maintains_get_state
           | |- maintains _ (ret _) => apply maintains_ret
           | |- maintains _ (throw _) => apply maintains_throw
           | |- maintains _ unmodelled => apply maintains_unmodelled
           | |- maintains _ (update _) => apply maintains_update; intros; auto
           | |- maintains _ (bind _ _) => apply maintains_bind; [|intros ?]
           | |- maintains _ (match ?x with _ => _ end) => destruct x
           | |- maintains _ (if ?x then _ else _) => destruct x
           end.
Qed.

Lemma maintains_doReAttempt : maintains P (_doReAttempt axios).
Proof.
  unfold _doReAttempt.
  apply maintains_bind; [apply maintains_get_state|]. intros st.
  apply maintains_bind; [apply maintains_Qretry, (maintains_send Tier2)|].
  intros [res|err].
  - apply maintains_bind; [apply maintains_get_state|]. intros st'.
    apply maintains_bind; [|intros; apply maintains_ret].
    apply maintains_update. apply maintains_remove.
  - apply maintains_bind; [apply maintains_get_state|]. intros st'.
    apply maintains_bind; [apply maintains_update, maintains_remove|]. intros _.
    apply maintains_bind; [|intros; apply maintains_ret].
    apply maintains_update. intros s Hs. now apply P_log.
Qed.

Lemma maintains_doRetry : maintains P (_doRetry axios).
Proof.
  unfold _doRetry.
  apply maintains_bind; [apply maintains_get_state|]. intros st.
  apply maintains_bind; [apply maintains_Qretry, (maintains_send Tier1)|].
  intros [res|err]; [apply maintains_ret|].
  apply maintains_bind;
    [apply maintains_update; intros s Hs; now apply P_log|]. intros _.
  apply maintains_bind; [apply maintains_get_state|]. intros st'.
  destruct (o_reAttempt st'); [|apply maintains_ret].
  apply maintains_bind;
    [apply maintains_update; intros s Hs; now apply P_log|]. intros _.
  apply maintains_bind; [apply maintains_update, maintains_add|]. intros _.
  apply maintains_doReAttempt.
Qed.

Lemma maintains_run : maintains P (run axios).
Proof.
  unfold run.
  apply maintains_bind; [apply maintains_configure|]. intros _.
  apply maintains_bind; [apply maintains_get_state|]. intros st.
  destruct (blockedGroups.contains (o_group st) st);
    [apply maintains_ret | apply maintains_doRetry].
Qed.

Lemma maintains_runStrategy (name : string) : maintains P (runStrategy axios name).
Proof.
  unfold runStrategy.
  apply maintains_bind; [apply maintains_get_state|]. intros st.
  destruct (negb (truthy (strategies.get name st))).
  - apply maintains_bind; [|intros; apply maintains_ret].
    apply maintains_update. intros s Hs. now apply P_log.
  - apply maintains_bind.
    + apply maintains_for_each. intros key. unfold _strategyHelper.
      destruct (truthy _); [|apply maintains_ret].
      repeat match goal with
             | |- maintains _ (if ?x then _ else _) => destruct x
             end;
        try apply maintains_unmodelled;
        unfold retry, request, reAttempt, group; apply maintains_update;
        intros; auto.
    + intros _. apply maintains_bind; [apply maintains_run | intros; apply maintains_ret].
Qed.

End Invariant.

Lemma only_published_log (h0 : list (event * list value)) (e : event) (st : state) :
  publishable e = true -> only_published h0 st -> only_published h0 (log e st).
Proof.
  intros He H topic data snap [Heq|Hin].
  - right. injection Heq as Heq _. subst e. simpl in He.
    apply orb_true_iff in He as [He|He]; apply String.eqb_eq in He; auto.
  - now apply H.
Qed.

(** X7. The only topics [run] and [runStrategy] ever publish are
    "retriesFailed" and "reAttemptsFailed": whatever the client answers,
    every [Publish] in the history afterwards was there before or has one
    of these two topics.  The topics "reAttemptSuccessful" and
    "failedRetries" that the demo application subscribes to are never
    published. *)
Theorem run_publishes_two_topics_only
    (axios : value -> nat -> promise) (name : string) (st : state)
    (topic data : string) (snapshot : list value) :
  (In (Publish topic data, snapshot) (history (snd (run axios st))) ->
   In (Publish topic data, snapshot) (history st) \/
   topic = "retriesFailed" \/ topic = "reAttemptsFailed")
  /\
  (In (Publish topic data, snapshot) (history (snd (runStrategy axios name st))) ->
   In (Publish topic data, snapshot) (history st) \/
   topic = "retriesFailed" \/ topic = "reAttemptsFailed").
Proof.
  assert (Hst : only_published (history st) st) by (intros t d s H; now left).
  split; intros Hin.
  - refine (maintains_run (only_published (history st)) _ _ _ _ _ _ _ _
              axios st Hst topic data snapshot Hin);
      try (intros; assumption).
    apply only_published_log.
  - refine (maintains_runStrategy (only_published (history st)) _ _ _ _ _ _ _ _ _
              axios name st Hst topic data snapshot Hin);
      try (intros; assumption).
    apply only_published_log.
Qed.
